(** * PUF-based key generator: the Python reference model

    A shallow embedding of [python/HMAC/hmac_sha3_512.py] and
    [python/SHA3/sha3_512.py]: the simplified keyed hash
    [SHA3-512((K_padded xor ipad) || message)] and the two plain hashing
    modes (PUF mode, Block mode), with the byte-order conventions of the
    hardware they mirror.

    Python values are modelled as the code has them: [int] as [Z], [bytes]
    as [list byte], exceptions as a result type, instances as attribute
    dictionaries in a heap, and calls into [hashlib] as events of a trace. *)

From Stdlib Require Import ZArith List Lia.
From Stdlib Require Import Strings.String Strings.Byte.
From stdpp Require Import gmap strings list pretty.

Open Scope Z_scope.

(** ** Python values *)

Abbreviation bytes := (list byte).

(** The exceptions the modelled code can raise, with their messages. *)
Inductive exn : Type :=
| ValueError (msg : string)
| TypeError (msg : string)
| OverflowError (msg : string)
| AttributeError (msg : string).

Inductive result (A : Type) : Type :=
| Ok (a : A)
| Raise (e : exn).
Arguments Ok {A} a.
Arguments Raise {A} e.

(** An item of a list: an [int], or a value of another builtin type
    (float, str, NoneType, ...), of which only the type's name matters. *)
Inductive pyitem : Type :=
| ItemInt (z : Z)
| ItemOther (type_name : string).

(** The dynamically typed arguments of the public entry points: a key is
    [Union[bytes, int]], a message [Union[bytes, List[int]]], but any list
    can be passed; anything that is no [int], [bytes] or [list] is
    [PyOther]. *)
Inductive pyval : Type :=
| PyInt (z : Z)
| PyBytes (b : bytes)
| PyListOf (items : list pyitem)
| PyOther.

(** A list whose items are all [int]s. *)
Abbreviation PyList ws := (PyListOf (map ItemInt ws)).

Inductive byteorder : Type := little | big.

(** *** Errors as values *)

Definition result_bind {A B} (r : result A) (k : A -> result B) : result B :=
  match r with
  | Ok a => k a
  | Raise e => Raise e
  end.

(** A generator expression consumed by its caller: the items are produced
    in order and the first exception stops the iteration. *)
Fixpoint result_mapM {A B} (f : A -> result B) (l : list A) : result (list B) :=
  match l with
  | [] => Ok []
  | a :: l' =>
      result_bind (f a) (fun b =>
      result_bind (result_mapM f l') (fun bs => Ok (b :: bs)))
  end.

(** *** [int] and [bytes] *)

(** The byte of value [z mod 256]. *)
Definition byte_of_Z (z : Z) : byte :=
  match Byte.of_N (Z.to_N (z mod 256)) with
  | Some b => b
  | None => x00
  end.

Definition Z_of_byte (b : byte) : Z := Z.of_N (Byte.to_N b).

(** The [n] low-order bytes of [v], least significant first. *)
Fixpoint le_digits (n : nat) (v : Z) : bytes :=
  match n with
  | O => []
  | S n' => byte_of_Z v :: le_digits n' (v / 256)
  end.

(** [int.to_bytes(length, byteorder)] with the default [signed=False]. *)
Definition to_bytes (v : Z) (length : nat) (order : byteorder) : result bytes :=
  if v <? 0 then Raise (OverflowError "can't convert negative int to unsigned")
  else if 256 ^ Z.of_nat length <=? v then Raise (OverflowError "int too big to convert")
  else Ok (match order with
           | little => le_digits length v
           | big => rev (le_digits length v)
           end).

(** The method call [word.to_bytes(length, byteorder)] on a list item: an
    [int] has the method, a value of another builtin type has no such
    attribute. *)
Definition item_to_bytes (word : pyitem) (length : nat) (order : byteorder)
    : result bytes :=
  match word with
  | ItemInt z => to_bytes z length order
  | ItemOther type_name =>
      Raise (AttributeError
               ("'" +:+ type_name +:+ "' object has no attribute 'to_bytes'"))
  end.

(** Iterating over a [bytes] object yields its items as [int]s. *)
Definition iter_bytes (b : bytes) : list Z := map Z_of_byte b.

(** [bytes(iterable_of_ints)]. *)
Definition bytes_of_ints (l : list Z) : result bytes :=
  result_mapM (fun z =>
    if (0 <=? z) && (z <? 256) then Ok (byte_of_Z z)
    else Raise (ValueError "bytes must be in range(0, 256)")) l.

(** [sep.join(parts)] for the empty separator. *)
Definition bytes_join (parts : list bytes) : bytes := concat parts.

(** [bytes.hex()]. *)
Definition hex_digit (z : Z) : string :=
  String.substring (Z.to_nat z) 1 "0123456789abcdef".

Definition bytes_hex (b : bytes) : string :=
  fold_right (fun x acc =>
    (hex_digit (Z_of_byte x / 16) +:+ hex_digit (Z_of_byte x mod 16) +:+ acc)%string)
    EmptyString b.

(** ** The world: instances and the hash library *)

Definition loc := nat.

(** What the program asks of [hashlib]: a new SHA3-512 object, data fed to
    it, a digest taken from it. *)
Inductive hash_event : Type :=
| HashNew
| HashUpdate (data : bytes)
| HashDigest (absorbed : bytes).

Record world : Type := World {
  heap : gmap loc (gmap string bytes);
  hash_trace : list hash_event
}.

(** Computations that read and write the world and may raise. *)
Definition M (A : Type) : Type := world -> result A * world.

Definition ret {A} (a : A) : M A := fun w => (Ok a, w).

Definition raise {A} (e : exn) : M A := fun w => (Raise e, w).

Definition bind {A B} (m : M A) (k : A -> M B) : M B :=
  fun w =>
    match m w with
    | (Ok a, w') => k a w'
    | (Raise e, w') => (Raise e, w')
    end.

Definition lift {A} (r : result A) : M A := fun w => (r, w).

(** [M] is a monad in stdpp's sense: [x ← m; k] binds, [m;; k] sequences. *)
#[export] Instance M_ret : MRet M := @ret.
#[export] Instance M_bind : MBind M := fun A B k m => bind m k.

(** Attribute access on an instance: [self.name] and [self.name = v]. *)
Definition getattr (self : loc) (name : string) : M bytes :=
  fun w =>
    match heap w !! self ≫= (fun d => d !! name) with
    | Some v => (Ok v, w)
    | None => (Raise (AttributeError name), w)
    end.

Definition setattr (self : loc) (name : string) (v : bytes) : M unit :=
  fun w =>
    (Ok tt,
     {| heap := <[self := <[name := v]> (default ∅ (heap w !! self))]> (heap w);
        hash_trace := hash_trace w |}).

(** Allocation of a new instance with an empty attribute dictionary. *)
Definition new_object : M loc :=
  fun w =>
    let l := fresh (dom (heap w)) in
    (Ok l, {| heap := <[l := ∅]> (heap w); hash_trace := hash_trace w |}).

(** Sequence repetition, [s * n]. *)
Definition seq_mul {A} (s : list A) (n : nat) : list A := concat (replicate n s).

(** ** [hashlib]

    The SHA3-512 function itself is not part of the repository: it is the
    variable [sha3_512_primitive].  A hash object accumulates what
    [update] feeds it and [digest] applies the primitive to that. *)
Module hashlib.
Section WithPrimitive.
Variable sha3_512_primitive : bytes -> bytes.

Record hasher : Type := Hasher { absorbed : bytes }.

Definition log (ev : hash_event) : M unit :=
  fun w => (Ok tt, {| heap := heap w; hash_trace := hash_trace w ++ [ev] |}).

Definition sha3_512 : M hasher :=
  log HashNew;;
  ret {| absorbed := [] |}.

Definition update (h : hasher) (data : bytes) : M hasher :=
  log (HashUpdate data);;
  ret {| absorbed := absorbed h ++ data |}.

Definition digest (h : hasher) : M bytes :=
  log (HashDigest (absorbed h));;
  ret (sha3_512_primitive (absorbed h)).
End WithPrimitive.
End hashlib.

(** ** [class HMAC_SHA3_512] (hmac_sha3_512.py) *)
Module HMAC_SHA3_512.
Section WithPrimitive.
Variable sha3_512_primitive : bytes -> bytes.

Definition IPAD_BYTE : Z := 0x36.
Definition KEY_BITS : Z := 512.
Definition PADDED_KEY_BITS : Z := 576.
Definition RATE_WORDS : Z := 18.

Definition __init__ (self : loc) (key : pyval) : M unit :=
  match key with
  | PyInt key =>
      key_bytes ← lift (to_bytes key 64 big);
      setattr self "key" key_bytes
  | PyBytes key =>
      if negb (length key =? 64)%nat then
        raise (ValueError ("Key must be 64 bytes (512 bits), got "
                           +:+ pretty (length key) +:+ " bytes"))
      else setattr self "key" key
  | _ => raise (TypeError "Key must be bytes or int")
  end.

(** The call [HMAC_SHA3_512(key)]. *)
Definition new (key : pyval) : M loc :=
  self ← new_object;
  __init__ self key;;
  ret self.

Definition _pad_key (self : loc) : M bytes :=
  key ← getattr self "key";
  ret (key ++ seq_mul [x00] 8).

Definition _compute_ipad_block (self : loc) : M bytes :=
  key_padded ← _pad_key self;
  ipad ← lift (bytes_of_ints (seq_mul [IPAD_BYTE] 72));
  key_xor_ipad ← lift (bytes_of_ints
    (map (fun '(a, b) => Z.lxor a b) (zip (iter_bytes key_padded) (iter_bytes ipad))));
  ret key_xor_ipad.

Definition compute (self : loc) (message : pyval) : M bytes :=
  msg_bytes ← match message with
               | PyListOf message =>
                   parts ← lift (result_mapM (fun word => item_to_bytes word 4 little)
                                   message);
                   ret (bytes_join parts)
               | PyBytes message => ret message
               | _ => raise (TypeError "Message must be bytes or list of 32-bit words")
               end;
  ipad_block ← _compute_ipad_block self;
  let data := ipad_block ++ msg_bytes in
  hasher ← hashlib.sha3_512;
  hasher ← hashlib.update hasher data;
  hashlib.digest sha3_512_primitive hasher.

Definition compute_hex (self : loc) (message : pyval) : M string :=
  tag ← compute self message;
  ret (bytes_hex tag).
End WithPrimitive.
End HMAC_SHA3_512.

(** ** [class SHA3_512_Hardware] (sha3_512.py) *)
Module SHA3_512_Hardware.
Section WithPrimitive.
Variable sha3_512_primitive : bytes -> bytes.

Definition hash_puf_mode (data_704bit : Z) : M bytes :=
  data_bytes ← lift (to_bytes data_704bit 88 little);
  hasher ← hashlib.sha3_512;
  hasher ← hashlib.update hasher data_bytes;
  hashlib.digest sha3_512_primitive hasher.

Definition hash_block_mode (words : list Z) : M bytes :=
  parts ← lift (result_mapM (fun word => to_bytes word 4 little) words);
  let data_bytes := bytes_join parts in
  hasher ← hashlib.sha3_512;
  hasher ← hashlib.update hasher data_bytes;
  hashlib.digest sha3_512_primitive hasher.

Definition hash_bytes (data : bytes) : M bytes :=
  hasher ← hashlib.sha3_512;
  hasher ← hashlib.update hasher data;
  hashlib.digest sha3_512_primitive hasher.
End WithPrimitive.
End SHA3_512_Hardware.

(** ** The specification's vocabulary

    The codec and the blocks of the keyed-hash construction, written from
    the words of the specification (sections 3, 4.1 and 7), to be compared
    with what the Python code computes. *)
Module Spec.
Definition word_in_range (w : Z) : bool := (0 <=? w) && (w <? 2 ^ 32).

(** "for each word in order, emit 4 bytes, least-significant byte first;
    concatenate in sequence order"; [None] is the RangeError. *)
Definition encode_words_le (words : list Z) : option bytes :=
  if forallb word_in_range words then
    Some (flat_map (fun w => [byte_of_Z w; byte_of_Z (w / 2 ^ 8);
                              byte_of_Z (w / 2 ^ 16); byte_of_Z (w / 2 ^ 24)]) words)
  else None.

(** The unsigned integer a byte string denotes, most significant byte
    first ([decode_bytes_be]) and least significant byte first. *)
Definition decode_bytes_be (data : bytes) : Z :=
  fold_left (fun acc b => acc * 256 + Z_of_byte b) data 0.

Definition decode_bytes_le (data : bytes) : Z :=
  fold_right (fun b acc => Z_of_byte b + 256 * acc) 0 data.

Definition xor_byte (a b : byte) : byte :=
  byte_of_Z (Z.lxor (Z_of_byte a) (Z_of_byte b)).

Definition xor_bytes (a b : bytes) : bytes := zip_with xor_byte a b.

(** "a fixed 72-byte sequence, every byte equal to 0x36". *)
Definition inner_pad : bytes := replicate 72 x36.

(** "formed by appending 8 zero bytes to the 64-byte Key". *)
Definition padded_key_block (key : bytes) : bytes := key ++ replicate 8 x00.

(** "byte-wise XOR of Padded Key Block and Inner Pad Constant". *)
Definition xor_block (key : bytes) : bytes :=
  xor_bytes (padded_key_block key) inner_pad.

(** The error taxonomy of section 7 and the Python exceptions that
    realise it: the key-length check raises a [ValueError] with its own
    message, an out-of-range integer makes [int.to_bytes] raise an
    [OverflowError]. *)
Definition InvalidKeyError (e : exn) : Prop :=
  exists n : nat,
    e = ValueError ("Key must be 64 bytes (512 bits), got " +:+ pretty n +:+ " bytes").

Definition RangeError (e : exn) : Prop :=
  exists msg, e = OverflowError msg.

(** A message the constructor of section 4.2 accepts: bytes, or a list
    of words that each fit in 32 bits. *)
Definition valid_word (item : pyitem) : Prop :=
  match item with
  | ItemInt w => 0 <= w < 2 ^ 32
  | ItemOther _ => False
  end.

Definition valid_message (message : pyval) : Prop :=
  match message with
  | PyBytes _ => True
  | PyListOf items => Forall valid_word items
  | _ => False
  end.
End Spec.

(** ** A reference SHA3-512

    FIPS 202 on lists of 64-bit lanes (lane [(x, y)] at index [x + 5 y]),
    rate 72 bytes.  It stands for [hashlib.sha3_512] wherever a concrete
    primitive is needed. *)
Module Keccak.
Definition rotl64 (x : Z) (n : Z) : Z :=
  Z.land (Z.lor (Z.shiftl x n) (Z.shiftr x (64 - n))) (Z.ones 64).

Definition lane (st : list Z) (x y : nat) : Z :=
  nth ((x mod 5) + 5 * (y mod 5))%nat st 0.

Definition rotation_offsets : list Z :=
  [ 0;  1; 62; 28; 27;
   36; 44;  6; 55; 20;
    3; 10; 43; 25; 39;
   41; 45; 15; 21;  8;
   18;  2; 61; 56; 14].

Definition round_constants : list Z :=
  [0x0000000000000001; 0x0000000000008082; 0x800000000000808A;
   0x8000000080008000; 0x000000000000808B; 0x0000000080000001;
   0x8000000080008081; 0x8000000000008009; 0x000000000000008A;
   0x0000000000000088; 0x0000000080008009; 0x000000008000000A;
   0x000000008000808B; 0x800000000000008B; 0x8000000000008089;
   0x8000000000008003; 0x8000000000008002; 0x8000000000000080;
   0x000000000000800A; 0x800000008000000A; 0x8000000080008081;
   0x8000000000008080; 0x0000000080000001; 0x8000000080008008].

Definition column (st : list Z) (x : nat) : Z :=
  fold_right (fun y acc => Z.lxor (lane st x y) acc) 0 (seq 0 5).

Definition theta (st : list Z) : list Z :=
  map (fun i =>
         let x := (i mod 5)%nat in
         let d := Z.lxor (column st (x + 4)) (rotl64 (column st (x + 1)) 1) in
         Z.lxor (nth i st 0) d)
      (seq 0 25).

Definition rho_pi (st : list Z) : list Z :=
  map (fun i =>
         let X := (i mod 5)%nat in
         let Y := (i / 5)%nat in
         let x := ((X + 3 * Y) mod 5)%nat in
         let y := X in
         rotl64 (lane st x y) (nth (x + 5 * y)%nat rotation_offsets 0))
      (seq 0 25).

Definition chi (st : list Z) : list Z :=
  map (fun i =>
         let x := (i mod 5)%nat in
         let y := (i / 5)%nat in
         Z.lxor (lane st x y)
                (Z.land (Z.lxor (lane st (x + 1) y) (Z.ones 64)) (lane st (x + 2) y)))
      (seq 0 25).

Definition iota (rc : Z) (st : list Z) : list Z :=
  match st with
  | [] => []
  | a :: rest => Z.lxor a rc :: rest
  end.

Definition round (st : list Z) (rc : Z) : list Z :=
  iota rc (chi (rho_pi (theta st))).

Definition keccak_f (st : list Z) : list Z := fold_left round round_constants st.

Definition rate : nat := 72.

Definition lane_of_bytes (bs : list Z) : Z :=
  fold_right (fun b acc => b + 256 * acc) 0 bs.

Fixpoint bytes_of_lane (n : nat) (l : Z) : list Z :=
  match n with
  | O => []
  | S n' => l mod 256 :: bytes_of_lane n' (l / 256)
  end.

Definition xor_in (st : list Z) (block : list Z) : list Z :=
  map (fun i => Z.lxor (nth i st 0) (lane_of_bytes (firstn 8 (skipn (8 * i) block))))
      (seq 0 25).

Definition pad (m : list Z) : list Z :=
  let q := (rate - (length m mod rate))%nat in
  m ++ (if (q =? 1)%nat then [0x86] else [0x06] ++ replicate (q - 2) 0 ++ [0x80]).

Fixpoint absorb (fuel : nat) (st : list Z) (data : list Z) : list Z :=
  match fuel with
  | O => st
  | S fuel' =>
      match data with
      | [] => st
      | _ => absorb fuel' (keccak_f (xor_in st (firstn rate data))) (skipn rate data)
      end
  end.

Definition squeeze (st : list Z) : list Z :=
  firstn 64 (flat_map (bytes_of_lane 8) st).

Definition sha3_512 (m : bytes) : bytes :=
  let data := pad (iter_bytes m) in
  map byte_of_Z (squeeze (absorb (length data) (replicate 25 0) data)).
End Keccak.

(** ** Programs and states the properties speak of *)

(** The instance [self] holds [k] as its [key] attribute. *)
Definition holds_key (w : world) (self : loc) (k : bytes) : Prop :=
  heap w !! self ≫= (fun d => d !! "key") = Some k.

(** The expression [HMAC_SHA3_512(key).compute(message)]. *)
Definition hmac_compute (sha3_512_primitive : bytes -> bytes)
    (key message : pyval) : M bytes :=
  self ← HMAC_SHA3_512.new key;
  HMAC_SHA3_512.compute sha3_512_primitive self message.

(** The three [hashlib] calls every entry point ends with, on [data]. *)
Definition hash_events (data : bytes) : list hash_event :=
  [HashNew; HashUpdate data; HashDigest data].

(** The world after those calls. *)
Definition after_hash (w : world) (data : bytes) : world :=
  {| heap := heap w; hash_trace := hash_trace w ++ hash_events data |}.

(** ** Test data of the repository *)

(** The world before anything ran. *)
Definition empty_world : world := {| heap := ∅; hash_trace := [] |}.

(** [key_int] of [test_hmac], and the same key as 64 bytes. *)
Definition key_int : Z :=
  0x0123456789ABCDEF0123456789ABCDEF0123456789ABCDEF0123456789ABCDEF0123456789ABCDEF0123456789ABCDEF0123456789ABCDEF0123456789ABCDEF.

Definition key_bytes : bytes :=
  seq_mul [x01; x23; x45; x67; x89; xab; xcd; xef] 8.

(** The world after [HMAC_SHA3_512(key_bytes)] ran in the empty one; the
    instance is at location 0. *)
Definition keyed_world : world :=
  snd (HMAC_SHA3_512.new (PyBytes key_bytes) empty_world).

(** [message_words] of [test_hmac]. *)
Definition message_words : list Z := [0xDEADBEEF; 0xCAFEBABE].

(** [puf_data_1] of [test_vectors]: [int('AA' * 88, 16)]. *)
Definition puf_data_1 : Z :=
  0xAAAAAAAAAAAAAAAAAAAAAAAAAAAAAAAAAAAAAAAAAAAAAAAAAAAAAAAAAAAAAAAAAAAAAAAAAAAAAAAAAAAAAAAAAAAAAAAAAAAAAAAAAAAAAAAAAAAAAAAAAAAAAAAAAAAAAAAAAAAAAAAAAAAAAAAAAAAAAAAAAAAAAAAAAAAAAAAA.

(** [words_5] of [test_vectors]. *)
Definition words_5 : list Z := [0x12345678].

(** ** The verification scripts (verify_hmac.py, verify_keccak.py)

    What the scripts print is left out: with arguments of the types their
    signatures give, no [print] raises and none changes a result.  What
    computes, compares or can raise is kept, in source order. *)

(** [int.from_bytes(data, byteorder)], unsigned. *)
Definition from_bytes (data : bytes) (order : byteorder) : Z :=
  match order with
  | big => fold_left (fun acc b => acc * 256 + Z_of_byte b) data 0
  | little => fold_right (fun b acc => Z_of_byte b + 256 * acc) 0 data
  end.

(** How a script function ends: it returns, or one of the exceptions of
    the library code comes through, or a subscript is out of range. *)
Inductive outcome (A : Type) : Type :=
| Returned (a : A)
| Raised (e : exn)
| RaisedIndexError (msg : string).
Arguments Returned {A} a.
Arguments Raised {A} e.
Arguments RaisedIndexError {A} msg.

Definition Script (A : Type) : Type := world -> outcome A * world.

Definition script_bind {A B} (m : Script A) (k : A -> Script B) : Script B :=
  fun w =>
    match m w with
    | (Returned a, w') => k a w'
    | (Raised e, w') => (Raised e, w')
    | (RaisedIndexError msg, w') => (RaisedIndexError msg, w')
    end.

#[export] Instance Script_ret : MRet Script := fun A a w => (Returned a, w).
#[export] Instance Script_bind : MBind Script := fun A B k m => script_bind m k.

(** A call into the library code. *)
Definition call {A} (m : M A) : Script A :=
  fun w =>
    match m w with
    | (Ok a, w') => (Returned a, w')
    | (Raise e, w') => (Raised e, w')
    end.

(** The subscript [b[i]] for [i >= 0]. *)
Definition getitem (b : bytes) (i : nat) : Script Z :=
  fun w =>
    match b !! i with
    | Some x => (Returned (Z_of_byte x), w)
    | None => (RaisedIndexError "index out of range", w)
    end.

(** [for i in items: body(i)]. *)
Fixpoint for_each (items : list nat) (body : nat -> Script unit) : Script unit :=
  match items with
  | [] => mret tt
  | i :: rest => body i;; for_each rest body
  end.

(** The byte-by-byte comparison both scripts run on a mismatch. *)
Definition show_differences (expected computed : bytes) : Script unit :=
  for_each (seq 0 64) (fun i =>
    exp_byte ← getitem expected i;
    comp_byte ← getitem computed i;
    mret tt).

Module verify_hmac.
Section WithPrimitive.
Variable sha3_512_primitive : bytes -> bytes.

Definition verify_with_hardware (puf_key : Z) (message : list Z)
    (expected_hmac : Z) : Script bool :=
  hmac ← call (HMAC_SHA3_512.new (PyInt puf_key));
  computed_hmac_bytes ←
    call (HMAC_SHA3_512.compute sha3_512_primitive hmac (PyList message));
  let computed_hmac_int := from_bytes computed_hmac_bytes big in
  expected_hmac_bytes ← call (lift (to_bytes expected_hmac 64 big));
  let match_ := computed_hmac_int =? expected_hmac in
  if match_ then mret true
  else
    show_differences expected_hmac_bytes computed_hmac_bytes;;
    mret false.
End WithPrimitive.
End verify_hmac.

Module verify_keccak.
Section WithPrimitive.
Variable sha3_512_primitive : bytes -> bytes.

Definition verify_puf_mode (data_704bit : Z) (expected_hash : Z) : Script bool :=
  computed_hash_bytes ←
    call (SHA3_512_Hardware.hash_puf_mode sha3_512_primitive data_704bit);
  let computed_hash_int := from_bytes computed_hash_bytes big in
  let match_ := computed_hash_int =? expected_hash in
  if match_ then mret true
  else
    expected_bytes ← call (lift (to_bytes expected_hash 64 big));
    show_differences expected_bytes computed_hash_bytes;;
    mret false.

Definition verify_block_mode (words : list Z) (expected_hash : Z) : Script bool :=
  computed_hash_bytes ←
    call (SHA3_512_Hardware.hash_block_mode sha3_512_primitive words);
  let computed_hash_int := from_bytes computed_hash_bytes big in
  let match_ := computed_hash_int =? expected_hash in
  if match_ then mret true
  else
    expected_bytes ← call (lift (to_bytes expected_hash 64 big));
    show_differences expected_bytes computed_hash_bytes;;
    mret false.
End WithPrimitive.
End verify_keccak.

(** The 32-bit words of an integer, least significant word first: the
    order in which the hardware is fed in PUF mode. *)
Fixpoint words_le (n : nat) (v : Z) : list Z :=
  match n with
  | O => []
  | S n' => v mod 2 ^ 32 :: words_le n' (v / 2 ^ 32)
  end.

(** The characters of a string. *)
Fixpoint chars (s : string) : list Ascii.ascii :=
  match s with
  | EmptyString => []
  | String c s' => c :: chars s'
  end.

(** * Properties *)

(** ** Bytes and integers *)

Lemma Z_of_byte_range (b : byte) : 0 <= Z_of_byte b < 256.
Proof.
  unfold Z_of_byte. pose proof (Byte.to_N_bounded b). lia.
Qed.

Lemma byte_of_Z_of_byte (b : byte) : byte_of_Z (Z_of_byte b) = b.
Proof.
  unfold byte_of_Z. rewrite Z.mod_small by apply Z_of_byte_range.
  unfold Z_of_byte. rewrite N2Z.id, Byte.of_to_N. reflexivity.
Qed.

Lemma Z_of_byte_of_Z (z : Z) : Z_of_byte (byte_of_Z z) = z mod 256.
Proof.
  unfold byte_of_Z, Z_of_byte.
  pose proof (Z.mod_pos_bound z 256 ltac:(lia)) as Hr.
  destruct (Byte.of_N (Z.to_N (z mod 256))) as [b|] eqn:E.
  - apply Byte.to_of_N in E. rewrite E. lia.
  - apply Byte.of_N_None_iff in E. lia.
Qed.

Lemma le_digits_length (n : nat) (v : Z) : length (le_digits n v) = n.
Proof.
  revert v. induction n as [|n IH]; intros v; simpl; [reflexivity|].
  rewrite IH. reflexivity.
Qed.

(** Byte [i] of the little-endian digits is digit [i] of [v] in base 256. *)
Lemma le_digits_lookup (n : nat) (v : Z) (i : nat) :
  (i < n)%nat ->
  le_digits n v !! i = Some (byte_of_Z (v / 256 ^ Z.of_nat i)).
Proof.
  revert v i. induction n as [|n IH]; intros v i Hi; [lia|].
  destruct i as [|i]; simpl.
  - rewrite Z.div_1_r. reflexivity.
  - rewrite IH by lia. f_equal. f_equal.
    rewrite Z.div_div by lia. f_equal.
    replace (Z.of_nat (S i)) with (1 + Z.of_nat i) by lia.
    rewrite Z.pow_add_r by lia. reflexivity.
Qed.

Lemma decode_le_digits (n : nat) (v : Z) :
  0 <= v < 256 ^ Z.of_nat n ->
  Spec.decode_bytes_le (le_digits n v) = v.
Proof.
  revert v. induction n as [|n IH]; intros v Hv; simpl.
  - change (256 ^ Z.of_nat 0) with 1 in Hv. lia.
  - rewrite Z_of_byte_of_Z. rewrite IH.
    + pose proof (Z.div_mod v 256 ltac:(lia)). lia.
    + replace (Z.of_nat (S n)) with (1 + Z.of_nat n) in Hv by lia.
      rewrite Z.pow_add_r in Hv by lia. change (256 ^ 1) with 256 in Hv.
      split; [apply Z.div_pos; lia|].
      apply Z.div_lt_upper_bound; lia.
Qed.

Lemma decode_be_app (a : bytes) (b : byte) :
  Spec.decode_bytes_be (a ++ [b]) = Spec.decode_bytes_be a * 256 + Z_of_byte b.
Proof.
  unfold Spec.decode_bytes_be. rewrite fold_left_app. reflexivity.
Qed.

Lemma decode_be_rev (l : bytes) :
  Spec.decode_bytes_be (rev l) = Spec.decode_bytes_le l.
Proof.
  induction l as [|b l IH]; simpl; [reflexivity|].
  rewrite decode_be_app, IH. lia.
Qed.

(** ** [int.to_bytes] *)

Lemma to_bytes_ok (v : Z) (n : nat) (order : byteorder) :
  0 <= v < 256 ^ Z.of_nat n ->
  to_bytes v n order =
    Ok (match order with little => le_digits n v | big => rev (le_digits n v) end).
Proof.
  intros [Hlo Hhi]. unfold to_bytes.
  destruct (Z.ltb_spec v 0); [lia|].
  destruct (Z.leb_spec (256 ^ Z.of_nat n) v); [lia|]. reflexivity.
Qed.

Lemma to_bytes_out_of_range (v : Z) (n : nat) (order : byteorder) :
  ~ 0 <= v < 256 ^ Z.of_nat n ->
  exists msg, to_bytes v n order = Raise (OverflowError msg).
Proof.
  intros Hv. unfold to_bytes.
  destruct (Z.ltb_spec v 0); [eauto|].
  destruct (Z.leb_spec (256 ^ Z.of_nat n) v); [eauto|]. lia.
Qed.

Lemma to_bytes_length (v : Z) (n : nat) (order : byteorder) (b : bytes) :
  to_bytes v n order = Ok b -> length b = n.
Proof.
  unfold to_bytes. intros H.
  destruct (v <? 0); [discriminate|].
  destruct (256 ^ Z.of_nat n <=? v); [discriminate|].
  injection H as <-. destruct order; [|rewrite length_rev]; apply le_digits_length.
Qed.

(** ** Generator expressions *)

Lemma result_mapM_ok {A B} (f : A -> result B) (g : A -> B) (l : list A) :
  Forall (fun a => f a = Ok (g a)) l ->
  result_mapM f l = Ok (map g l).
Proof.
  induction 1 as [|a l Ha _ IH]; simpl; [reflexivity|].
  rewrite Ha. simpl. rewrite IH. reflexivity.
Qed.

(** The iteration stops at the first item that raises, with its exception,
    or else runs to the end. *)
Lemma result_mapM_raise {A B} (f : A -> result B) (P : exn -> Prop) (l : list A) :
  (forall a e, f a = Raise e -> P e) ->
  Exists (fun a => exists e, f a = Raise e) l ->
  exists e, result_mapM f l = Raise e /\ P e.
Proof.
  intros HP. induction l as [|a l IH]; intros Hex.
  - inversion Hex.
  - simpl. destruct (f a) as [b|e] eqn:Ha.
    + simpl. destruct IH as (e & -> & He).
      * inversion Hex as [? ? (e' & He')|]; subst; [congruence|assumption].
      * exists e. auto.
    + exists e. split; [reflexivity|]. eapply HP; eassumption.
Qed.

(** ** Words to bytes *)

Lemma le_digits_4 (w : Z) :
  le_digits 4 w =
    [byte_of_Z w; byte_of_Z (w / 2 ^ 8); byte_of_Z (w / 2 ^ 16); byte_of_Z (w / 2 ^ 24)].
Proof.
  simpl. rewrite !Z.div_div by lia. reflexivity.
Qed.

Lemma words_to_bytes_ok (ws : list Z) :
  Forall (fun w => 0 <= w < 2 ^ 32) ws ->
  result_mapM (fun word => to_bytes word 4 little) ws = Ok (map (le_digits 4) ws).
Proof.
  intros H. apply result_mapM_ok.
  eapply Forall_impl; [exact H|]. intros w Hw. simpl.
  apply (to_bytes_ok w 4 little). exact Hw.
Qed.

Lemma words_to_bytes_raise (ws : list Z) :
  Exists (fun w => ~ 0 <= w < 2 ^ 32) ws ->
  exists msg,
    result_mapM (fun word => to_bytes word 4 little) ws = Raise (OverflowError msg).
Proof.
  intros H.
  destruct (result_mapM_raise (fun word => to_bytes word 4 little)
              (fun e => exists msg, e = OverflowError msg) ws) as (e & He & msg & ->).
  - intros a e. unfold to_bytes.
    destruct (a <? 0); [intros [= <-]; eauto|].
    destruct (256 ^ Z.of_nat 4 <=? a); [intros [= <-]; eauto|discriminate].
  - eapply Exists_impl; [exact H|]. intros w Hw.
    destruct (to_bytes_out_of_range w 4 little Hw) as [msg Hmsg]. eauto.
  - eauto.
Qed.

Lemma items_of_ints (ws : list Z) :
  result_mapM (fun word => item_to_bytes word 4 little) (map ItemInt ws)
  = result_mapM (fun word => to_bytes word 4 little) ws.
Proof.
  induction ws as [|w ws IH]; [reflexivity|].
  cbn [map result_mapM item_to_bytes]. rewrite IH. reflexivity.
Qed.

(** A list of valid words is a list of [int]s, each in range. *)
Lemma valid_words_ints (items : list pyitem) :
  Forall Spec.valid_word items ->
  exists ws, items = map ItemInt ws /\ Forall (fun w => 0 <= w < 2 ^ 32) ws.
Proof.
  induction 1 as [|item items Hitem _ (ws & -> & Hws)].
  - exists []. split; [reflexivity|constructor].
  - destruct item as [w|name]; [|contradiction].
    exists (w :: ws). split; [reflexivity|]. constructor; assumption.
Qed.

Lemma valid_message_words (ws : list Z) :
  Forall (fun w => 0 <= w < 2 ^ 32) ws -> Spec.valid_message (PyList ws).
Proof.
  intros H. cbn [Spec.valid_message]. induction H; cbn [map]; constructor; assumption.
Qed.



Lemma encode_words_le_ok (ws : list Z) :
  Forall (fun w => 0 <= w < 2 ^ 32) ws ->
  Spec.encode_words_le ws = Some (bytes_join (map (le_digits 4) ws)).
Proof.
  intros H. unfold Spec.encode_words_le.
  replace (forallb Spec.word_in_range ws) with true.
  - f_equal. unfold bytes_join. rewrite flat_map_concat_map. f_equal.
    apply map_ext. intros w. symmetry. apply le_digits_4.
  - symmetry. apply forallb_forall. intros w Hw.
    rewrite Forall_forall in H. apply list_elem_of_In, H in Hw.
    unfold Spec.word_in_range. apply andb_true_intro. split; [apply Z.leb_le|apply Z.ltb_lt]; lia.
Qed.

Lemma words_bytes_length (ws : list Z) :
  length (bytes_join (map (le_digits 4) ws)) = (4 * length ws)%nat.
Proof.
  unfold bytes_join. induction ws as [|w ws IH]; [reflexivity|].
  cbn [map concat]. rewrite length_app, IH, le_digits_length. simpl. lia.
Qed.

(** Byte [k] of word [j] sits at offset [4 j + k] and is digit [k] of the
    word in base 256. *)
Lemma words_bytes_lookup (ws : list Z) (j k : nat) (w : Z) :
  ws !! j = Some w -> (k < 4)%nat ->
  bytes_join (map (le_digits 4) ws) !! (4 * j + k)%nat
    = Some (byte_of_Z (w / 256 ^ Z.of_nat k)).
Proof.
  unfold bytes_join. revert j. induction ws as [|w0 ws IH]; intros j Hj Hk.
  - discriminate.
  - cbn [map concat]. destruct j as [|j].
    + injection Hj as ->. rewrite lookup_app_l by (rewrite le_digits_length; lia).
      replace (4 * 0 + k)%nat with k by lia. apply le_digits_lookup. exact Hk.
    + rewrite lookup_app_r by (rewrite le_digits_length; lia).
      rewrite le_digits_length.
      replace (4 * S j + k - 4)%nat with (4 * j + k)%nat by lia.
      apply IH; assumption.
Qed.

(** ** Running computations *)

Lemma bind_ok {A B} (m : M A) (k : A -> M B) (w w' : world) (a : A) :
  m w = (Ok a, w') -> (m ≫= k) w = k a w'.
Proof.
  intros H. unfold mbind, M_bind, bind. rewrite H. reflexivity.
Qed.

Lemma bind_raise {A B} (m : M A) (k : A -> M B) (w w' : world) (e : exn) :
  m w = (Raise e, w') -> (m ≫= k) w = (Raise e, w').
Proof.
  intros H. unfold mbind, M_bind, bind. rewrite H. reflexivity.
Qed.

Lemma lift_run {A} (r : result A) (w : world) : lift r w = (r, w).
Proof. reflexivity. Qed.

Lemma ret_run {A} (a : A) (w : world) : ret a w = (Ok a, w).
Proof. reflexivity. Qed.

(** The tail shared by [compute] and the three hashing modes. *)
Lemma hash_run (prim : bytes -> bytes) (data : bytes) (w : world) :
  (hasher ← hashlib.sha3_512;
   hasher ← hashlib.update hasher data;
   hashlib.digest prim hasher) w
  = (Ok (prim data), after_hash w data).
Proof.
  unfold after_hash, hash_events. cbv -[app]. rewrite <- !app_assoc. reflexivity.
Qed.

(** ** The XOR block *)

Lemma lxor_byte_range (a b : Z) :
  0 <= a < 256 -> 0 <= b < 256 -> 0 <= Z.lxor a b < 256.
Proof.
  intros Ha Hb.
  assert (Hnn : 0 <= Z.lxor a b) by (apply Z.lxor_nonneg; lia).
  split; [exact Hnn|].
  destruct (Z.eq_dec (Z.lxor a b) 0) as [->|Hne]; [lia|].
  change 256 with (2 ^ 8). apply Z.log2_lt_pow2; [lia|].
  assert (Hlog : forall x, 0 <= x < 256 -> Z.log2 x < 8).
  { intros x Hx. destruct (Z.eq_dec x 0) as [->|]; [reflexivity|].
    apply Z.log2_lt_pow2; [lia|]. change (2 ^ 8) with 256. lia. }
  pose proof (Z.log2_lxor a b ltac:(lia) ltac:(lia)).
  pose proof (Hlog a Ha). pose proof (Hlog b Hb). lia.
Qed.

Lemma xor_ints_bytes (a b : bytes) :
  bytes_of_ints (map (fun '(x, y) => Z.lxor x y) (zip (iter_bytes a) (iter_bytes b)))
  = Ok (Spec.xor_bytes a b).
Proof.
  unfold bytes_of_ints, Spec.xor_bytes. revert b.
  induction a as [|x a IH]; intros [|y b]; try reflexivity.
  cbn [iter_bytes map zip zip_with result_mapM].
  pose proof (lxor_byte_range _ _ (Z_of_byte_range x) (Z_of_byte_range y)) as [Hlo Hhi].
  apply Z.leb_le in Hlo. apply Z.ltb_lt in Hhi. rewrite Hlo, Hhi. simpl.
  specialize (IH b). unfold iter_bytes in IH. rewrite IH. reflexivity.
Qed.

Lemma ipad_bytes :
  bytes_of_ints (seq_mul [HMAC_SHA3_512.IPAD_BYTE] 72) = Ok Spec.inner_pad.
Proof. reflexivity. Qed.

Lemma xor_block_length (k : bytes) :
  length k = 64%nat -> length (Spec.xor_block k) = 72%nat.
Proof.
  intros Hk. unfold Spec.xor_block, Spec.xor_bytes, Spec.padded_key_block, Spec.inner_pad.
  rewrite length_zip_with, length_app, !length_replicate, Hk. reflexivity.
Qed.

(** XOR with the same byte twice gives the byte back. *)
Lemma xor_byte_involutive (a p : byte) : Spec.xor_byte (Spec.xor_byte a p) p = a.
Proof.
  unfold Spec.xor_byte. rewrite Z_of_byte_of_Z.
  rewrite Z.mod_small
    by (apply lxor_byte_range; apply Z_of_byte_range).
  rewrite Z.lxor_assoc, Z.lxor_nilpotent, Z.lxor_0_r.
  apply byte_of_Z_of_byte.
Qed.

Lemma xor_bytes_involutive (a p : bytes) :
  length a = length p ->
  Spec.xor_bytes (Spec.xor_bytes a p) p = a.
Proof.
  unfold Spec.xor_bytes. revert p.
  induction a as [|x a IH]; intros [|y p] Hlen; try discriminate; [reflexivity|].
  simpl. rewrite xor_byte_involutive. f_equal. apply IH. simpl in Hlen. lia.
Qed.

(** ** The methods of [HMAC_SHA3_512] *)

Lemma getattr_key (w : world) (self : loc) (k : bytes) :
  holds_key w self k -> getattr self "key" w = (Ok k, w).
Proof.
  unfold holds_key, getattr. intros ->. reflexivity.
Qed.

Lemma pad_key_run (w : world) (self : loc) (k : bytes) :
  holds_key w self k ->
  HMAC_SHA3_512._pad_key self w = (Ok (Spec.padded_key_block k), w).
Proof.
  intros Hk. unfold HMAC_SHA3_512._pad_key.
  erewrite bind_ok by (apply getattr_key; exact Hk). reflexivity.
Qed.

Lemma compute_ipad_block_run (w : world) (self : loc) (k : bytes) :
  holds_key w self k ->
  HMAC_SHA3_512._compute_ipad_block self w = (Ok (Spec.xor_block k), w).
Proof.
  intros Hk. unfold HMAC_SHA3_512._compute_ipad_block.
  erewrite bind_ok by (apply pad_key_run; exact Hk).
  erewrite bind_ok by (rewrite lift_run, ipad_bytes; reflexivity).
  erewrite bind_ok by (rewrite lift_run, xor_ints_bytes; reflexivity).
  reflexivity.
Qed.

Lemma compute_bytes_run (prim : bytes -> bytes) (w : world) (self : loc)
    (k m : bytes) :
  holds_key w self k ->
  HMAC_SHA3_512.compute prim self (PyBytes m) w
  = (Ok (prim (Spec.xor_block k ++ m)), after_hash w (Spec.xor_block k ++ m)).
Proof.
  intros Hk. unfold HMAC_SHA3_512.compute.
  erewrite bind_ok by apply ret_run.
  erewrite bind_ok by (apply compute_ipad_block_run; exact Hk).
  apply hash_run.
Qed.

(** What [compute] does with a list, item by item. *)
Lemma compute_list_run (prim : bytes -> bytes) (w : world) (self : loc)
    (k : bytes) (items : list pyitem) :
  holds_key w self k ->
  HMAC_SHA3_512.compute prim self (PyListOf items) w
  = match result_mapM (fun word => item_to_bytes word 4 little) items with
    | Ok parts => (Ok (prim (Spec.xor_block k ++ bytes_join parts)),
                   after_hash w (Spec.xor_block k ++ bytes_join parts))
    | Raise e => (Raise e, w)
    end.
Proof.
  intros Hk. unfold HMAC_SHA3_512.compute.
  destruct (result_mapM (fun word => item_to_bytes word 4 little) items)
    as [parts|e] eqn:E.
  - erewrite bind_ok; cycle 1.
    { erewrite bind_ok by apply lift_run. apply ret_run. }
    erewrite bind_ok by (apply compute_ipad_block_run; exact Hk).
    apply hash_run.
  - erewrite bind_raise; [reflexivity|].
    erewrite bind_raise; [reflexivity|]. apply lift_run.
Qed.

Lemma compute_words_run (prim : bytes -> bytes) (w : world) (self : loc)
    (k : bytes) (ws : list Z) :
  holds_key w self k ->
  Forall (fun x => 0 <= x < 2 ^ 32) ws ->
  HMAC_SHA3_512.compute prim self (PyList ws) w
  = HMAC_SHA3_512.compute prim self (PyBytes (bytes_join (map (le_digits 4) ws))) w.
Proof.
  intros Hk Hws. rewrite (compute_bytes_run prim w self k _ Hk).
  rewrite (compute_list_run prim w self k _ Hk).
  rewrite items_of_ints, (words_to_bytes_ok ws Hws). reflexivity.
Qed.

Lemma compute_words_raise (prim : bytes -> bytes) (w : world) (self : loc)
    (ws : list Z) :
  Exists (fun x => ~ 0 <= x < 2 ^ 32) ws ->
  exists msg,
    HMAC_SHA3_512.compute prim self (PyList ws) w = (Raise (OverflowError msg), w).
Proof.
  intros Hws. destruct (words_to_bytes_raise ws Hws) as [msg Hmsg].
  exists msg. unfold HMAC_SHA3_512.compute.
  erewrite bind_raise; [reflexivity|].
  erewrite bind_raise; [reflexivity|]. rewrite lift_run, items_of_ints, Hmsg. reflexivity.
Qed.

(** Whatever the message and however the call ends, [compute] leaves the
    heap as it was. *)
Lemma compute_keeps_heap (prim : bytes -> bytes) (self : loc) (k : bytes)
    (message : pyval) (w w1 : world) (r : result bytes) :
  holds_key w self k ->
  HMAC_SHA3_512.compute prim self message w = (r, w1) ->
  heap w1 = heap w.
Proof.
  intros Hk. destruct message as [z|m|items| ].
  - intros [= _ <-]. reflexivity.
  - rewrite (compute_bytes_run prim w self k m Hk). intros [= _ <-]. reflexivity.
  - rewrite (compute_list_run prim w self k items Hk).
    destruct (result_mapM (fun word => item_to_bytes word 4 little) items);
      intros [= _ <-]; reflexivity.
  - intros [= _ <-]. reflexivity.
Qed.

Lemma compute_hex_keeps_heap (prim : bytes -> bytes) (self : loc) (k : bytes)
    (message : pyval) (w w1 : world) (r : result string) :
  holds_key w self k ->
  HMAC_SHA3_512.compute_hex prim self message w = (r, w1) ->
  heap w1 = heap w.
Proof.
  intros Hk. unfold HMAC_SHA3_512.compute_hex, mbind, M_bind, bind.
  destruct (HMAC_SHA3_512.compute prim self message w) as [[tag|e] w2] eqn:Hrun;
    intros [= _ <-]; exact (compute_keeps_heap prim self k message w w2 _ Hk Hrun).
Qed.

(** ** The constructor *)

(** The world after [HMAC_SHA3_512(key)] stored [k] in a new instance. *)
Lemma new_stores (w : world) (k : bytes) :
  let self := fresh (dom (heap w)) in
  exists w',
    (self ← new_object; _ ← setattr self "key" k; ret self) w = (Ok self, w')
    /\ holds_key w' self k
    /\ heap w !! self = None
    /\ (forall l, l <> self -> heap w' !! l = heap w !! l)
    /\ hash_trace w' = hash_trace w.
Proof.
  intros self. eexists. split; [reflexivity|]. cbn [heap hash_trace snd].
  repeat split.
  - unfold holds_key. cbn [heap]. rewrite lookup_insert_eq. cbn.
    apply lookup_insert_eq.
  - apply not_elem_of_dom. apply is_fresh.
  - intros l Hl. subst self. rewrite !lookup_insert_ne by auto. reflexivity.
Qed.

Lemma new_bytes_run (w : world) (k : bytes) :
  length k = 64%nat ->
  exists self w',
    HMAC_SHA3_512.new (PyBytes k) w = (Ok self, w')
    /\ holds_key w' self k
    /\ hash_trace w' = hash_trace w.
Proof.
  intros Hk. destruct (new_stores w k) as (w' & Hrun & Hkey & _ & _ & Htr).
  exists (fresh (dom (heap w))), w'. split; [|auto].
  rewrite <- Hrun. unfold HMAC_SHA3_512.new, HMAC_SHA3_512.__init__.
  rewrite Hk. reflexivity.
Qed.

Lemma new_bytes_raise (w : world) (k : bytes) :
  length k <> 64%nat ->
  exists w',
    HMAC_SHA3_512.new (PyBytes k) w
    = (Raise (ValueError ("Key must be 64 bytes (512 bits), got "
                          +:+ pretty (length k) +:+ " bytes")), w')
    /\ hash_trace w' = hash_trace w.
Proof.
  intros Hk. eexists. unfold HMAC_SHA3_512.new, HMAC_SHA3_512.__init__.
  apply Nat.eqb_neq in Hk. rewrite Hk. split; reflexivity.
Qed.

Lemma new_int_run (w : world) (z : Z) :
  0 <= z < 2 ^ 512 ->
  HMAC_SHA3_512.new (PyInt z) w = HMAC_SHA3_512.new (PyBytes (rev (le_digits 64 z))) w.
Proof.
  intros Hz. unfold HMAC_SHA3_512.new, HMAC_SHA3_512.__init__.
  rewrite length_rev, le_digits_length.
  rewrite (to_bytes_ok z 64 big) by exact Hz. reflexivity.
Qed.

Lemma new_int_raise (w : world) (z : Z) :
  ~ 0 <= z < 2 ^ 512 ->
  exists msg w',
    HMAC_SHA3_512.new (PyInt z) w = (Raise (OverflowError msg), w')
    /\ hash_trace w' = hash_trace w.
Proof.
  intros Hz. destruct (to_bytes_out_of_range z 64 big Hz) as [msg Hmsg].
  exists msg. eexists. unfold HMAC_SHA3_512.new, HMAC_SHA3_512.__init__.
  rewrite Hmsg. split; reflexivity.
Qed.

(** ** The reference SHA3-512 *)

Lemma iota_length (rc : Z) (st : list Z) :
  length (Keccak.iota rc st) = length st.
Proof. destruct st; reflexivity. Qed.

Lemma round_length (st : list Z) (rc : Z) : length (Keccak.round st rc) = 25%nat.
Proof.
  unfold Keccak.round, Keccak.chi. rewrite iota_length, length_map, length_seq.
  reflexivity.
Qed.

Lemma rounds_length (rcs : list Z) (st : list Z) :
  length st = 25%nat -> length (fold_left Keccak.round rcs st) = 25%nat.
Proof.
  revert st. induction rcs as [|rc rcs IH]; intros st Hst; [exact Hst|].
  cbn [fold_left]. apply IH, round_length.
Qed.

Lemma keccak_f_length (st : list Z) :
  length st = 25%nat -> length (Keccak.keccak_f st) = 25%nat.
Proof. apply rounds_length. Qed.

Lemma xor_in_length (st block : list Z) : length (Keccak.xor_in st block) = 25%nat.
Proof.
  unfold Keccak.xor_in. rewrite length_map, length_seq. reflexivity.
Qed.

Lemma absorb_length (fuel : nat) (st data : list Z) :
  length st = 25%nat -> length (Keccak.absorb fuel st data) = 25%nat.
Proof.
  revert st data. induction fuel as [|fuel IH]; intros st data Hst; [exact Hst|].
  cbn [Keccak.absorb]. destruct data; [exact Hst|].
  apply IH, keccak_f_length, xor_in_length.
Qed.

Lemma bytes_of_lane_length (n : nat) (l : Z) : length (Keccak.bytes_of_lane n l) = n.
Proof.
  revert l. induction n as [|n IH]; intros l; simpl; [reflexivity|].
  rewrite IH. reflexivity.
Qed.

Lemma squeeze_length (st : list Z) :
  length st = 25%nat -> length (Keccak.squeeze st) = 64%nat.
Proof.
  intros Hst. unfold Keccak.squeeze. rewrite length_take.
  assert (H : length (flat_map (Keccak.bytes_of_lane 8) st) = (8 * length st)%nat).
  { clear Hst. induction st as [|l st IH]; [reflexivity|].
    cbn [flat_map length]. rewrite length_app, IH, bytes_of_lane_length. lia. }
  rewrite H, Hst. reflexivity.
Qed.

(** The reference primitive meets the interface the specification asks of
    the hash: 64 bytes out, whatever goes in. *)
Lemma sha3_512_length (m : bytes) : length (Keccak.sha3_512 m) = 64%nat.
Proof.
  unfold Keccak.sha3_512. rewrite length_map.
  apply squeeze_length, absorb_length, length_replicate.
Qed.

(** FIPS 202 test vectors: the empty message and ["abc"]. *)
Example sha3_512_empty :
  bytes_hex (Keccak.sha3_512 []) =
  "a69f73cca23a9ac5c8b567dc185a756e97c982164fe25859e0d1dcc1475c80a615b2123af1f5f94c11e3e9402c3ac558f500199d95b6d3e301758586281dcd26"%string.
Proof. vm_compute. reflexivity. Qed.

Example sha3_512_abc :
  bytes_hex (Keccak.sha3_512 [x61; x62; x63]) =
  "b751850b1a57168a5693cd924b6b096e08f621827444f70d884f5d0240d2712e10e116e9192af3c91a7ec57647e3934057340b4cf408d5a56592f8274eec53f0"%string.
Proof. vm_compute. reflexivity. Qed.

(** ** The hashing modes of [SHA3_512_Hardware] *)

Lemma hash_puf_mode_run (prim : bytes -> bytes) (v : Z) (w : world) :
  0 <= v < 2 ^ 704 ->
  SHA3_512_Hardware.hash_puf_mode prim v w
  = (Ok (prim (le_digits 88 v)), after_hash w (le_digits 88 v)).
Proof.
  intros Hv. unfold SHA3_512_Hardware.hash_puf_mode.
  erewrite bind_ok by (rewrite lift_run, (to_bytes_ok v 88 little) by exact Hv; reflexivity).
  apply hash_run.
Qed.

Lemma hash_block_mode_run (prim : bytes -> bytes) (ws : list Z) (w : world) :
  Forall (fun x => 0 <= x < 2 ^ 32) ws ->
  SHA3_512_Hardware.hash_block_mode prim ws w
  = (Ok (prim (bytes_join (map (le_digits 4) ws))),
     after_hash w (bytes_join (map (le_digits 4) ws))).
Proof.
  intros Hws. unfold SHA3_512_Hardware.hash_block_mode.
  erewrite bind_ok by (rewrite lift_run, words_to_bytes_ok by exact Hws; reflexivity).
  apply hash_run.
Qed.

(** ** The keyed hash, end to end *)

Lemma hmac_compute_step (prim : bytes -> bytes) (key message : pyval)
    (w w1 : world) (self : loc) :
  HMAC_SHA3_512.new key w = (Ok self, w1) ->
  hmac_compute prim key message w = HMAC_SHA3_512.compute prim self message w1.
Proof.
  intros Hnew. unfold hmac_compute. erewrite bind_ok by exact Hnew. reflexivity.
Qed.

Lemma hmac_compute_bytes_run (prim : bytes -> bytes) (K M : bytes) (w : world) :
  length K = 64%nat ->
  exists w',
    hmac_compute prim (PyBytes K) (PyBytes M) w
    = (Ok (prim (Spec.xor_block K ++ M)), w')
    /\ hash_trace w' = hash_trace w ++ hash_events (Spec.xor_block K ++ M).
Proof.
  intros HK. destruct (new_bytes_run w K HK) as (self & w1 & Hnew & Hkey & Htr).
  exists (after_hash w1 (Spec.xor_block K ++ M)).
  rewrite (hmac_compute_step _ _ _ _ _ _ Hnew).
  rewrite (compute_bytes_run prim w1 self K M Hkey).
  split; [reflexivity|]. cbn [after_hash hash_trace]. rewrite Htr. reflexivity.
Qed.

(** C1: for a key [K] of exactly 64 bytes and a bytes message [M],
    [HMAC_SHA3_512(K).compute(M)] returns the primitive's digest of
    [(K || 8 zero bytes) xor ipad || M]: the padded key block is [K]
    followed by 8 zero bytes (72 bytes), the pad is 72 bytes of 0x36, the
    XOR block is their byte-wise XOR (72 bytes), and the only data handed
    to the hash is the XOR block followed by [M]. *)
Theorem hmac_compute_bytes_digest (prim : bytes -> bytes) (K M : bytes) (w : world) :
  length K = 64%nat ->
  Spec.padded_key_block K = K ++ replicate 8 x00
  /\ length (Spec.padded_key_block K) = 72%nat
  /\ Spec.inner_pad = replicate 72 x36
  /\ Spec.xor_block K = zip_with Spec.xor_byte (Spec.padded_key_block K) Spec.inner_pad
  /\ length (Spec.xor_block K) = 72%nat
  /\ exists w',
       hmac_compute prim (PyBytes K) (PyBytes M) w
       = (Ok (prim (Spec.xor_block K ++ M)), w')
       /\ hash_trace w' = hash_trace w ++ hash_events (Spec.xor_block K ++ M).
Proof.
  intros HK. split; [reflexivity|]. split.
  { unfold Spec.padded_key_block. rewrite length_app, length_replicate, HK. reflexivity. }
  split; [reflexivity|]. split; [reflexivity|].
  split; [apply xor_block_length; exact HK|].
  apply hmac_compute_bytes_run. exact HK.
Qed.

Lemma hmac_compute_bytes_digest_witness :
  length key_bytes = 64%nat
  /\ exists w',
       hmac_compute Keccak.sha3_512 (PyBytes key_bytes) (PyBytes [xef; xbe; xad; xde]) empty_world
       = (Ok (Keccak.sha3_512 (Spec.xor_block key_bytes ++ [xef; xbe; xad; xde])), w')
       /\ hash_trace w'
          = hash_trace empty_world ++ hash_events (Spec.xor_block key_bytes ++ [xef; xbe; xad; xde]).
Proof.
  split; [reflexivity|].
  apply (hmac_compute_bytes_digest Keccak.sha3_512 key_bytes [xef; xbe; xad; xde] empty_world).
  reflexivity.
Defined.

(** C2: for [0 <= V < 2^704], [hash_puf_mode(V)] serializes [V] whole into
    exactly 88 bytes, byte [i] being digit [i] of [V] in base 256 (least
    significant first), and returns the primitive's digest of those 88
    bytes; for the input whose 88 bytes are all 0xAA the data hashed is the
    88-byte buffer of 0xAA. *)
Theorem hash_puf_mode_digest (prim : bytes -> bytes) (V : Z) (w : world) :
  0 <= V < 2 ^ 704 ->
  (exists data,
     length data = 88%nat
     /\ (forall i, (i < 88)%nat ->
           Z_of_byte <$> data !! i = Some (V / 256 ^ Z.of_nat i mod 256))
     /\ Spec.decode_bytes_le data = V
     /\ SHA3_512_Hardware.hash_puf_mode prim V w = (Ok (prim data), after_hash w data))
  /\ SHA3_512_Hardware.hash_puf_mode prim puf_data_1 w
     = (Ok (prim (replicate 88 xaa)), after_hash w (replicate 88 xaa)).
Proof.
  intros HV. split.
  - exists (le_digits 88 V). split; [apply le_digits_length|]. split.
    { intros i Hi. rewrite (le_digits_lookup 88 V i Hi). cbn [fmap option_fmap option_map].
      f_equal. apply Z_of_byte_of_Z. }
    split; [apply (decode_le_digits 88 V); exact HV|].
    apply hash_puf_mode_run. exact HV.
  - rewrite hash_puf_mode_run by (unfold puf_data_1; lia).
    replace (le_digits 88 puf_data_1) with (replicate 88 xaa) by (vm_compute; reflexivity).
    reflexivity.
Qed.

Lemma hash_puf_mode_digest_witness :
  0 <= puf_data_1 < 2 ^ 704
  /\ (exists data,
        length data = 88%nat
        /\ (forall i, (i < 88)%nat ->
              Z_of_byte <$> data !! i = Some (puf_data_1 / 256 ^ Z.of_nat i mod 256))
        /\ Spec.decode_bytes_le data = puf_data_1
        /\ SHA3_512_Hardware.hash_puf_mode Keccak.sha3_512 puf_data_1 empty_world
           = (Ok (Keccak.sha3_512 data), after_hash empty_world data))
  /\ SHA3_512_Hardware.hash_puf_mode Keccak.sha3_512 puf_data_1 empty_world
     = (Ok (Keccak.sha3_512 (replicate 88 xaa)), after_hash empty_world (replicate 88 xaa)).
Proof.
  assert (H : 0 <= puf_data_1 < 2 ^ 704) by (unfold puf_data_1; lia).
  split; [exact H|].
  apply (hash_puf_mode_digest Keccak.sha3_512 puf_data_1 empty_world H).
Defined.

(** C3: for words each in [[0, 2^32)], [hash_block_mode(W)] serializes each
    word to exactly 4 bytes, least significant byte first, in sequence
    order (byte [k] of word [j] at offset [4 j + k]), as the
    specification's [encode_words_le] does, and returns the primitive's
    digest of that byte string; for [[0x12345678]] the bytes hashed are
    78 56 34 12. *)
Theorem hash_block_mode_digest (prim : bytes -> bytes) (W : list Z) (w : world) :
  Forall (fun x => 0 <= x < 2 ^ 32) W ->
  (exists data,
     length data = (4 * length W)%nat
     /\ (forall j k word, W !! j = Some word -> (k < 4)%nat ->
           Z_of_byte <$> data !! (4 * j + k)%nat
           = Some (word / 256 ^ Z.of_nat k mod 256))
     /\ Spec.encode_words_le W = Some data
     /\ SHA3_512_Hardware.hash_block_mode prim W w = (Ok (prim data), after_hash w data))
  /\ SHA3_512_Hardware.hash_block_mode prim words_5 w
     = (Ok (prim [x78; x56; x34; x12]), after_hash w [x78; x56; x34; x12]).
Proof.
  intros HW. split.
  - exists (bytes_join (map (le_digits 4) W)).
    split; [apply words_bytes_length|]. split.
    { intros j k word Hj Hk. rewrite (words_bytes_lookup W j k word Hj Hk).
      cbn [fmap option_fmap option_map]. f_equal. apply Z_of_byte_of_Z. }
    split; [apply encode_words_le_ok; exact HW|].
    apply hash_block_mode_run. exact HW.
  - rewrite hash_block_mode_run by (repeat constructor; unfold words_5; lia).
    reflexivity.
Qed.

Lemma hash_block_mode_digest_witness :
  Forall (fun x => 0 <= x < 2 ^ 32) message_words
  /\ exists data,
       length data = (4 * length message_words)%nat
       /\ (forall j k word, message_words !! j = Some word -> (k < 4)%nat ->
             Z_of_byte <$> data !! (4 * j + k)%nat
             = Some (word / 256 ^ Z.of_nat k mod 256))
       /\ Spec.encode_words_le message_words = Some data
       /\ SHA3_512_Hardware.hash_block_mode Keccak.sha3_512 message_words empty_world
          = (Ok (Keccak.sha3_512 data), after_hash empty_world data).
Proof.
  assert (H : Forall (fun x => 0 <= x < 2 ^ 32) message_words)
    by (repeat constructor; unfold message_words; lia).
  split; [exact H|].
  apply (hash_block_mode_digest Keccak.sha3_512 message_words empty_world H).
Defined.

(** C4: a bytes key whose length is not 64 makes the constructor raise the
    key-length error (Python's [ValueError] with the key-length message),
    so [HMAC_SHA3_512(key).compute(message)] raises it too, whatever the
    message; no call into [hashlib] is made and no digest is produced. *)
Theorem invalid_key_length_raises (prim : bytes -> bytes) (key : bytes)
    (message : pyval) (w : world) :
  length key <> 64%nat ->
  exists e w',
    Spec.InvalidKeyError e
    /\ e = ValueError ("Key must be 64 bytes (512 bits), got "
                       +:+ pretty (length key) +:+ " bytes")
    /\ HMAC_SHA3_512.new (PyBytes key) w = (Raise e, w')
    /\ hmac_compute prim (PyBytes key) message w = (Raise e, w')
    /\ hash_trace w' = hash_trace w.
Proof.
  intros Hlen. destruct (new_bytes_raise w key Hlen) as (w' & Hnew & Htr).
  eexists; exists w'. split; [exists (length key); reflexivity|].
  split; [reflexivity|]. split; [exact Hnew|]. split; [|exact Htr].
  unfold hmac_compute. erewrite bind_raise by exact Hnew. reflexivity.
Qed.

Lemma invalid_key_length_raises_witness :
  length (replicate 63 x00) <> 64%nat
  /\ exists e w',
       Spec.InvalidKeyError e
       /\ e = ValueError "Key must be 64 bytes (512 bits), got 63 bytes"
       /\ HMAC_SHA3_512.new (PyBytes (replicate 63 x00)) empty_world = (Raise e, w')
       /\ hmac_compute Keccak.sha3_512 (PyBytes (replicate 63 x00)) (PyList message_words)
            empty_world = (Raise e, w')
       /\ hash_trace w' = hash_trace empty_world.
Proof.
  assert (H : length (replicate 63 x00) <> 64%nat) by (simpl; lia).
  split; [exact H|].
  apply (invalid_key_length_raises Keccak.sha3_512 (replicate 63 x00)
           (PyList message_words) empty_world H).
Defined.

(** C5: a word list containing a word outside [[0, 2^32)] makes both
    [HMAC_SHA3_512.compute] and [hash_block_mode] raise the range error
    (Python's [OverflowError] from [int.to_bytes]); the world is left as it
    was, so nothing was hashed, no word was truncated and no digest is
    produced.  For 0x100000000 the error is "int too big to convert". *)
Theorem out_of_range_word_raises (prim : bytes -> bytes) (self : loc)
    (W : list Z) (w : world) :
  Exists (fun x => ~ 0 <= x < 2 ^ 32) W ->
  (exists e,
     Spec.RangeError e
     /\ HMAC_SHA3_512.compute prim self (PyList W) w = (Raise e, w))
  /\ (forall K : bytes, length K = 64%nat ->
        exists e w',
          Spec.RangeError e
          /\ hmac_compute prim (PyBytes K) (PyList W) w = (Raise e, w')
          /\ hash_trace w' = hash_trace w)
  /\ (exists e,
        Spec.RangeError e
        /\ SHA3_512_Hardware.hash_block_mode prim W w = (Raise e, w))
  /\ HMAC_SHA3_512.compute prim self (PyList [0x100000000]) w
     = (Raise (OverflowError "int too big to convert"), w)
  /\ SHA3_512_Hardware.hash_block_mode prim [0x100000000] w
     = (Raise (OverflowError "int too big to convert"), w).
Proof.
  intros HW. split; [|split; [|split; [|split; reflexivity]]].
  - destruct (compute_words_raise prim w self W HW) as [msg Hmsg].
    exists (OverflowError msg). split; [exists msg; reflexivity|exact Hmsg].
  - intros K HK. destruct (new_bytes_run w K HK) as (l & w1 & Hnew & _ & Htr).
    destruct (compute_words_raise prim w1 l W HW) as [msg Hmsg].
    exists (OverflowError msg), w1. split; [exists msg; reflexivity|].
    split; [|exact Htr]. rewrite (hmac_compute_step _ _ _ _ _ _ Hnew). exact Hmsg.
  - destruct (words_to_bytes_raise W HW) as [msg Hmsg].
    exists (OverflowError msg). split; [exists msg; reflexivity|].
    unfold SHA3_512_Hardware.hash_block_mode.
    erewrite bind_raise; [reflexivity|]. rewrite lift_run, Hmsg. reflexivity.
Qed.

Lemma out_of_range_word_raises_witness :
  Exists (fun x => ~ 0 <= x < 2 ^ 32) [0xDEADBEEF; 0x100000000]
  /\ (exists e,
        Spec.RangeError e
        /\ HMAC_SHA3_512.compute Keccak.sha3_512 0%nat
             (PyList [0xDEADBEEF; 0x100000000]) keyed_world = (Raise e, keyed_world))
  /\ (exists e,
        Spec.RangeError e
        /\ SHA3_512_Hardware.hash_block_mode Keccak.sha3_512
             [0xDEADBEEF; 0x100000000] keyed_world = (Raise e, keyed_world)).
Proof.
  assert (H : Exists (fun x => ~ 0 <= x < 2 ^ 32) [0xDEADBEEF; 0x100000000])
    by (apply Exists_cons_tl, Exists_cons_hd; lia).
  split; [exact H|].
  pose proof (out_of_range_word_raises Keccak.sha3_512 0%nat
                [0xDEADBEEF; 0x100000000] keyed_world H) as (H1 & _ & H2 & _).
  split; [exact H1|exact H2].
Defined.

(** C6: for a valid 64-byte key [K] and words [W] each in [[0, 2^32)],
    computing on the word sequence and computing on the little-endian
    pre-encoded bytes [encode_words_le(W)] give the same digest (and leave
    the same world), on a fresh instance and on any instance holding [K]. *)
Theorem words_and_encoded_bytes_agree (prim : bytes -> bytes) (K : bytes)
    (W : list Z) (w : world) :
  length K = 64%nat ->
  Forall (fun x => 0 <= x < 2 ^ 32) W ->
  exists encoded,
    Spec.encode_words_le W = Some encoded
    /\ hmac_compute prim (PyBytes K) (PyList W) w
       = hmac_compute prim (PyBytes K) (PyBytes encoded) w
    /\ (exists w', hmac_compute prim (PyBytes K) (PyList W) w
                   = (Ok (prim (Spec.xor_block K ++ encoded)), w'))
    /\ (forall self w0, holds_key w0 self K ->
          HMAC_SHA3_512.compute prim self (PyList W) w0
          = HMAC_SHA3_512.compute prim self (PyBytes encoded) w0).
Proof.
  intros HK HW. exists (bytes_join (map (le_digits 4) W)).
  split; [apply encode_words_le_ok; exact HW|].
  destruct (new_bytes_run w K HK) as (self & w1 & Hnew & Hkey & _).
  rewrite !(hmac_compute_step _ _ _ _ _ _ Hnew).
  rewrite (compute_words_run prim w1 self K W Hkey HW).
  split; [reflexivity|]. split.
  - rewrite (compute_bytes_run prim w1 self K _ Hkey). eauto.
  - intros l w0 Hl. apply (compute_words_run prim w0 l K W Hl HW).
Qed.

Lemma words_and_encoded_bytes_agree_witness :
  length key_bytes = 64%nat
  /\ Forall (fun x => 0 <= x < 2 ^ 32) message_words
  /\ hmac_compute Keccak.sha3_512 (PyBytes key_bytes) (PyList message_words) empty_world
     = hmac_compute Keccak.sha3_512 (PyBytes key_bytes)
         (PyBytes [xef; xbe; xad; xde; xbe; xba; xfe; xca]) empty_world.
Proof.
  assert (HW : Forall (fun x => 0 <= x < 2 ^ 32) message_words)
    by (repeat constructor; unfold message_words; lia).
  split; [reflexivity|]. split; [exact HW|].
  destruct (words_and_encoded_bytes_agree Keccak.sha3_512 key_bytes message_words
              empty_world eq_refl HW) as (encoded & Henc & Heq & _).
  injection Henc as <-. exact Heq.
Defined.

(** C7: for a valid 64-byte key, the empty message, as zero words or as
    zero bytes, is accepted and its digest is the primitive's digest of the
    72-byte XOR block alone. *)
Theorem empty_message_digest (prim : bytes -> bytes) (K : bytes) (w : world) :
  length K = 64%nat ->
  length (Spec.xor_block K) = 72%nat
  /\ (exists w', hmac_compute prim (PyBytes K) (PyBytes []) w
                 = (Ok (prim (Spec.xor_block K)), w')
                 /\ hash_trace w' = hash_trace w ++ hash_events (Spec.xor_block K))
  /\ (exists w', hmac_compute prim (PyBytes K) (PyList []) w
                 = (Ok (prim (Spec.xor_block K)), w')
                 /\ hash_trace w' = hash_trace w ++ hash_events (Spec.xor_block K)).
Proof.
  intros HK. split; [apply xor_block_length; exact HK|].
  destruct (hmac_compute_bytes_run prim K [] w HK) as (w' & Hrun & Htr).
  rewrite app_nil_r in Hrun, Htr.
  split; [exists w'; auto|]. exists w'. split; [|exact Htr].
  destruct (new_bytes_run w K HK) as (self & w1 & Hnew & Hkey & _).
  rewrite (hmac_compute_step prim _ (PyBytes []) _ _ _ Hnew) in Hrun.
  rewrite (hmac_compute_step prim _ (PyList []) _ _ _ Hnew).
  rewrite (compute_words_run prim w1 self K [] Hkey) by constructor. exact Hrun.
Qed.

Lemma empty_message_digest_witness :
  length key_bytes = 64%nat
  /\ exists w', hmac_compute Keccak.sha3_512 (PyBytes key_bytes) (PyList []) empty_world
                = (Ok (Keccak.sha3_512 (Spec.xor_block key_bytes)), w')
                /\ hash_trace w'
                   = hash_trace empty_world ++ hash_events (Spec.xor_block key_bytes).
Proof.
  split; [reflexivity|].
  apply (empty_message_digest Keccak.sha3_512 key_bytes empty_world eq_refl).
Defined.

(** C8: for an instance holding a 64-byte key [K], XOR-ing the pad (72
    bytes of 0x36) into the block that [_compute_ipad_block] returns gives
    back the padded key block [K || 8 zero bytes] that [_pad_key] returns,
    both with plain byte-wise XOR and with the code's own XOR expression. *)
Theorem xor_block_involutive (K : bytes) (self : loc) (w : world) :
  length K = 64%nat ->
  holds_key w self K ->
  exists block padded,
    HMAC_SHA3_512._compute_ipad_block self w = (Ok block, w)
    /\ HMAC_SHA3_512._pad_key self w = (Ok padded, w)
    /\ padded = K ++ replicate 8 x00
    /\ block = Spec.xor_bytes padded (replicate 72 x36)
    /\ Spec.xor_bytes block (replicate 72 x36) = padded
    /\ bytes_of_ints (map (fun '(a, b) => Z.lxor a b)
                        (zip (iter_bytes block) (iter_bytes (replicate 72 x36))))
       = Ok padded.
Proof.
  intros HK Hkey. exists (Spec.xor_block K), (Spec.padded_key_block K).
  split; [apply compute_ipad_block_run; exact Hkey|].
  split; [apply pad_key_run; exact Hkey|].
  split; [reflexivity|]. split; [reflexivity|].
  assert (Hinv : Spec.xor_bytes (Spec.xor_block K) (replicate 72 x36)
                 = Spec.padded_key_block K).
  { apply xor_bytes_involutive. unfold Spec.padded_key_block.
    rewrite length_app, !length_replicate, HK. reflexivity. }
  split; [exact Hinv|]. rewrite xor_ints_bytes, Hinv. reflexivity.
Qed.

Lemma xor_block_involutive_witness :
  length key_bytes = 64%nat
  /\ holds_key keyed_world 0%nat key_bytes
  /\ exists block padded,
       HMAC_SHA3_512._compute_ipad_block 0%nat keyed_world = (Ok block, keyed_world)
       /\ HMAC_SHA3_512._pad_key 0%nat keyed_world = (Ok padded, keyed_world)
       /\ padded = key_bytes ++ replicate 8 x00
       /\ block = Spec.xor_bytes padded (replicate 72 x36)
       /\ Spec.xor_bytes block (replicate 72 x36) = padded
       /\ bytes_of_ints (map (fun '(a, b) => Z.lxor a b)
                           (zip (iter_bytes block) (iter_bytes (replicate 72 x36))))
          = Ok padded.
Proof.
  assert (Hkey : holds_key keyed_world 0%nat key_bytes) by (vm_compute; reflexivity).
  split; [reflexivity|]. split; [exact Hkey|].
  apply (xor_block_involutive key_bytes 0%nat keyed_world eq_refl Hkey).
Defined.

(** ** Integer keys and the key invariant *)

Lemma be_digits_lookup (n : nat) (v : Z) (i : nat) :
  (i < n)%nat ->
  rev (le_digits n v) !! i = Some (byte_of_Z (v / 256 ^ Z.of_nat (n - S i))).
Proof.
  intros Hi. rewrite rev_alt. change (rev_append ?l []) with (reverse l).
  rewrite reverse_lookup by (rewrite le_digits_length; exact Hi).
  rewrite le_digits_length. apply le_digits_lookup. lia.
Qed.

Lemma hmac_compute_new_eq (prim : bytes -> bytes) (key key' message : pyval)
    (w : world) :
  HMAC_SHA3_512.new key w = HMAC_SHA3_512.new key' w ->
  hmac_compute prim key message w = hmac_compute prim key' message w.
Proof.
  intros H. unfold hmac_compute, mbind, M_bind, bind. rewrite H. reflexivity.
Qed.

(** Whatever the constructor was given, when it returns the instance holds
    64 bytes. *)
Lemma new_ok_stores (key : pyval) (w w1 : world) (self : loc) :
  HMAC_SHA3_512.new key w = (Ok self, w1) ->
  exists k, length k = 64%nat /\ holds_key w1 self k.
Proof.
  assert (Hstore : forall k,
    (l ← new_object; _ ← setattr l "key" k; ret l) w = (Ok self, w1) ->
    holds_key w1 self k).
  { intros k Hrun. destruct (new_stores w k) as (w' & Hrun' & Hkey & _).
    rewrite Hrun in Hrun'. injection Hrun' as -> ->. exact Hkey. }
  destruct key as [z|k| |]; unfold HMAC_SHA3_512.new, HMAC_SHA3_512.__init__.
  - destruct (to_bytes z 64 big) as [b|e] eqn:E; [|discriminate].
    intros Hrun. exists b. split; [eapply to_bytes_length; exact E|].
    apply Hstore. exact Hrun.
  - destruct (Nat.eqb_spec (length k) 64) as [Hk|Hk]; [|discriminate].
    intros Hrun. exists k. split; [exact Hk|]. apply Hstore. exact Hrun.
  - discriminate.
  - discriminate.
Qed.

(** C9: an integer key [K] with [0 <= K < 2^512] is accepted, however few
    bytes it needs, and stored as its 64-byte big-endian form (byte [i] is
    digit [63 - i] of [K] in base 256, so short values are zero-extended on
    the left); a negative [K] or [K >= 2^512] makes the constructor raise;
    an integer key and its 64-byte big-endian encoding give the same result
    for the same message. *)
Theorem int_key_constructor (prim : bytes -> bytes) (K : Z) (message : pyval)
    (w : world) :
  (0 <= K < 2 ^ 512 ->
   exists kb,
     length kb = 64%nat
     /\ Spec.decode_bytes_be kb = K
     /\ (forall i, (i < 64)%nat ->
           Z_of_byte <$> kb !! i = Some (K / 256 ^ Z.of_nat (63 - i) mod 256))
     /\ (exists self w', HMAC_SHA3_512.new (PyInt K) w = (Ok self, w')
                         /\ holds_key w' self kb)
     /\ HMAC_SHA3_512.new (PyInt K) w = HMAC_SHA3_512.new (PyBytes kb) w
     /\ hmac_compute prim (PyInt K) message w
        = hmac_compute prim (PyBytes kb) message w)
  /\ (K < 0 \/ 2 ^ 512 <= K ->
      exists e w',
        Spec.RangeError e
        /\ HMAC_SHA3_512.new (PyInt K) w = (Raise e, w')
        /\ hmac_compute prim (PyInt K) message w = (Raise e, w')
        /\ hash_trace w' = hash_trace w).
Proof.
  split.
  - intros HK. exists (rev (le_digits 64 K)).
    assert (Hlen : length (rev (le_digits 64 K)) = 64%nat)
      by (rewrite length_rev; apply le_digits_length).
    pose proof (new_int_run w K HK) as Hnew.
    split; [exact Hlen|]. split.
    { rewrite decode_be_rev. apply (decode_le_digits 64 K). exact HK. }
    split.
    { intros i Hi. rewrite (be_digits_lookup 64 K i Hi).
      cbn [fmap option_fmap option_map]. f_equal.
      rewrite Z_of_byte_of_Z. reflexivity. }
    split.
    { destruct (new_bytes_run w _ Hlen) as (self & w' & Hrun & Hkey & _).
      exists self, w'. rewrite Hnew. auto. }
    split; [exact Hnew|]. apply hmac_compute_new_eq. exact Hnew.
  - intros HK.
    destruct (new_int_raise w K ltac:(lia)) as (msg & w' & Hnew & Htr).
    exists (OverflowError msg), w'. split; [exists msg; reflexivity|].
    split; [exact Hnew|]. split; [|exact Htr].
    unfold hmac_compute. erewrite bind_raise by exact Hnew. reflexivity.
Qed.

Lemma int_key_constructor_witness :
  0 <= key_int < 2 ^ 512
  /\ (exists kb,
        length kb = 64%nat
        /\ Spec.decode_bytes_be kb = key_int
        /\ (forall i, (i < 64)%nat ->
              Z_of_byte <$> kb !! i = Some (key_int / 256 ^ Z.of_nat (63 - i) mod 256))
        /\ (exists self w', HMAC_SHA3_512.new (PyInt key_int) empty_world = (Ok self, w')
                            /\ holds_key w' self kb)
        /\ HMAC_SHA3_512.new (PyInt key_int) empty_world
           = HMAC_SHA3_512.new (PyBytes kb) empty_world
        /\ hmac_compute Keccak.sha3_512 (PyInt key_int) (PyList message_words) empty_world
           = hmac_compute Keccak.sha3_512 (PyBytes kb) (PyList message_words) empty_world)
  /\ (-1 < 0 \/ 2 ^ 512 <= -1)
  /\ (exists e w',
        Spec.RangeError e
        /\ HMAC_SHA3_512.new (PyInt (-1)) empty_world = (Raise e, w')
        /\ hmac_compute Keccak.sha3_512 (PyInt (-1)) (PyList message_words) empty_world
           = (Raise e, w')
        /\ hash_trace w' = hash_trace empty_world).
Proof.
  assert (H1 : 0 <= key_int < 2 ^ 512) by (unfold key_int; lia).
  assert (H2 : -1 < 0 \/ 2 ^ 512 <= -1) by (left; lia).
  split; [exact H1|]. split.
  - apply (proj1 (int_key_constructor Keccak.sha3_512 key_int (PyList message_words)
                    empty_world) H1).
  - split; [exact H2|].
    apply (proj2 (int_key_constructor Keccak.sha3_512 (-1) (PyList message_words)
                    empty_world) H2).
Defined.

(** C10: an instance the constructor returned holds a key of exactly 64
    bytes, and no operation changes it: on any world where the instance
    holds that key, [compute] and [compute_hex] leave the heap (and so the
    stored key) as it was, whatever the message and whether they return or
    raise, and so do [_pad_key] and [_compute_ipad_block]; on a valid
    message [compute] and [compute_hex] succeed and, the primitive giving
    64 bytes, return a digest of exactly 64 bytes. *)
Theorem instance_key_invariant (prim : bytes -> bytes) (key : pyval)
    (w w1 : world) (self : loc) :
  (forall data, length (prim data) = 64%nat) ->
  HMAC_SHA3_512.new key w = (Ok self, w1) ->
  exists k,
    holds_key w1 self k
    /\ length k = 64%nat
    /\ (forall (w2 : world) (message : pyval),
         holds_key w2 self k ->
         Spec.valid_message message ->
         exists tag w3,
           HMAC_SHA3_512.compute prim self message w2 = (Ok tag, w3)
           /\ HMAC_SHA3_512.compute_hex prim self message w2 = (Ok (bytes_hex tag), w3)
           /\ length tag = 64%nat
           /\ heap w3 = heap w2
           /\ holds_key w3 self k
           /\ (exists padded, HMAC_SHA3_512._pad_key self w2 = (Ok padded, w2))
           /\ (exists block, HMAC_SHA3_512._compute_ipad_block self w2 = (Ok block, w2)))
    /\ (forall (w2 w3 : world) (message : pyval) (r : result bytes),
         holds_key w2 self k ->
         HMAC_SHA3_512.compute prim self message w2 = (r, w3) ->
         heap w3 = heap w2 /\ holds_key w3 self k)
    /\ (forall (w2 w3 : world) (message : pyval) (r : result string),
         holds_key w2 self k ->
         HMAC_SHA3_512.compute_hex prim self message w2 = (r, w3) ->
         heap w3 = heap w2 /\ holds_key w3 self k).
Proof.
  intros Hprim Hnew. destruct (new_ok_stores key w w1 self Hnew) as (k & Hlen & Hkey).
  exists k. split; [exact Hkey|]. split; [exact Hlen|].
  assert (Hkeep : forall w2 w3, holds_key w2 self k -> heap w3 = heap w2 ->
                    heap w3 = heap w2 /\ holds_key w3 self k).
  { intros w2 w3 Hk2 Hheap. split; [exact Hheap|].
    unfold holds_key. rewrite Hheap. exact Hk2. }
  split; [|split].
  - intros w2 message Hk2 Hvalid.
    assert (Hbytes : forall m,
      exists tag w3,
        HMAC_SHA3_512.compute prim self (PyBytes m) w2 = (Ok tag, w3)
        /\ length tag = 64%nat /\ heap w3 = heap w2 /\ holds_key w3 self k).
    { intros m. eexists _, _. split; [apply (compute_bytes_run prim w2 self k m Hk2)|].
      split; [apply Hprim|]. split; [reflexivity|exact Hk2]. }
    assert (Hcompute :
      exists tag w3,
        HMAC_SHA3_512.compute prim self message w2 = (Ok tag, w3)
        /\ length tag = 64%nat /\ heap w3 = heap w2 /\ holds_key w3 self k).
    { destruct message as [z|m|items| ]; try contradiction.
      - apply Hbytes.
      - destruct (valid_words_ints items Hvalid) as (ws & -> & Hws).
        rewrite (compute_words_run prim w2 self k ws Hk2 Hws). apply Hbytes. }
    destruct Hcompute as (tag & w3 & Hrun & Htag & Hheap & Hk3).
    exists tag, w3. split; [exact Hrun|]. split.
    { unfold HMAC_SHA3_512.compute_hex. erewrite bind_ok by exact Hrun. reflexivity. }
    repeat (split; [assumption|]). split.
    + eexists. apply (pad_key_run w2 self k Hk2).
    + eexists. apply (compute_ipad_block_run w2 self k Hk2).
  - intros w2 w3 message r Hk2 Hrun. apply (Hkeep w2 w3 Hk2).
    exact (compute_keeps_heap prim self k message w2 w3 r Hk2 Hrun).
  - intros w2 w3 message r Hk2 Hrun. apply (Hkeep w2 w3 Hk2).
    exact (compute_hex_keeps_heap prim self k message w2 w3 r Hk2 Hrun).
Qed.

Lemma instance_key_invariant_witness :
  (forall data, length (Keccak.sha3_512 data) = 64%nat)
  /\ HMAC_SHA3_512.new (PyBytes key_bytes) empty_world = (Ok 0%nat, keyed_world)
  /\ exists k,
       holds_key keyed_world 0%nat k
       /\ length k = 64%nat
       /\ (forall (w2 : world) (message : pyval),
            holds_key w2 0%nat k ->
            Spec.valid_message message ->
            exists tag w3,
              HMAC_SHA3_512.compute Keccak.sha3_512 0%nat message w2 = (Ok tag, w3)
              /\ HMAC_SHA3_512.compute_hex Keccak.sha3_512 0%nat message w2
                 = (Ok (bytes_hex tag), w3)
              /\ length tag = 64%nat
              /\ heap w3 = heap w2
              /\ holds_key w3 0%nat k
              /\ (exists padded, HMAC_SHA3_512._pad_key 0%nat w2 = (Ok padded, w2))
              /\ (exists block,
                    HMAC_SHA3_512._compute_ipad_block 0%nat w2 = (Ok block, w2)))
       /\ (forall (w2 w3 : world) (message : pyval) (r : result bytes),
            holds_key w2 0%nat k ->
            HMAC_SHA3_512.compute Keccak.sha3_512 0%nat message w2 = (r, w3) ->
            heap w3 = heap w2 /\ holds_key w3 0%nat k)
       /\ (forall (w2 w3 : world) (message : pyval) (r : result string),
            holds_key w2 0%nat k ->
            HMAC_SHA3_512.compute_hex Keccak.sha3_512 0%nat message w2 = (r, w3) ->
            heap w3 = heap w2 /\ holds_key w3 0%nat k).
Proof.
  assert (Hnew : HMAC_SHA3_512.new (PyBytes key_bytes) empty_world = (Ok 0%nat, keyed_world))
    by (vm_compute; reflexivity).
  split; [exact sha3_512_length|]. split; [exact Hnew|].
  apply (instance_key_invariant Keccak.sha3_512 (PyBytes key_bytes) empty_world
           keyed_world 0%nat sha3_512_length Hnew).
Defined.

(** Scenario 1 of the specification, on the reference primitive: the key
    0x0123456789ABCDEF repeated, the words 0xDEADBEEF and 0xCAFEBABE. *)
Example scenario_1 :
  fst ((self ← HMAC_SHA3_512.new (PyInt key_int);
        HMAC_SHA3_512.compute_hex Keccak.sha3_512 self (PyList message_words)) empty_world)
  = Ok "9eb97bc398f2ebde945d3ef9fac1d85c0d9c5a6a58c08243155921b094da61b53bd9118987bf2abddb9782be9953131449dcbe388a049b6489be2cfe28e86e9c"%string.
Proof. vm_compute. reflexivity. Qed.

(** Scenarios 2 and 3: PUF mode on 88 bytes of 0xAA, Block mode on the
    single word 0x12345678. *)
Example scenario_2 :
  fst ((tag ← SHA3_512_Hardware.hash_puf_mode Keccak.sha3_512 puf_data_1;
        ret (bytes_hex tag)) empty_world)
  = Ok "6c26d0bb1992ff784d7f1131a28a2e5a0a035f3b16a58b70ec804700b79306dd4a186f9a5959e094110a9da547a5b7c8f1fbaaa90b63fc92fc4717919848f547"%string.
Proof. vm_compute. reflexivity. Qed.

Example scenario_3 :
  fst ((tag ← SHA3_512_Hardware.hash_block_mode Keccak.sha3_512 words_5;
        ret (bytes_hex tag)) empty_world)
  = Ok "d908b3f46060dab5618c776e77dd5ecd1b484353fcce3b32cc1f0e55736f2645425c835427ed415f4560b86a6c635a10054eb25e4d4b976e964edc13324428ea"%string.
Proof. vm_compute. reflexivity. Qed.

(** * Further properties of the code *)

(** ** Whole-integer and word-by-word serialization *)

Lemma byte_of_Z_low (v x : Z) : byte_of_Z (v mod 256 + 256 * x) = byte_of_Z v.
Proof.
  unfold byte_of_Z.
  replace ((v mod 256 + 256 * x) mod 256) with (v mod 256); [reflexivity|].
  rewrite (Z.mul_comm 256), Z_mod_plus_full.
  symmetry. apply Z.mod_mod. lia.
Qed.

(** The [n] low bytes of [v] only depend on [v] modulo [256^n]. *)
Lemma le_digits_mod (n : nat) (v : Z) :
  le_digits n (v mod 256 ^ Z.of_nat n) = le_digits n v.
Proof.
  revert v. induction n as [|n IH]; intros v; [reflexivity|].
  replace (Z.of_nat (S n)) with (1 + Z.of_nat n) by lia.
  rewrite Z.pow_add_r by lia. change (256 ^ 1) with 256.
  rewrite Z.rem_mul_r by lia. cbn [le_digits].
  rewrite byte_of_Z_low. f_equal.
  rewrite (Z.add_comm (v mod 256)), (Z.mul_comm 256), Z_div_plus_full_l by lia.
  rewrite (Z.div_small (v mod 256)) by (apply Z.mod_pos_bound; lia).
  rewrite Z.add_0_r. apply IH.
Qed.

Lemma le_digits_app (a b : nat) (v : Z) :
  le_digits (a + b) v = le_digits a v ++ le_digits b (v / 256 ^ Z.of_nat a).
Proof.
  revert v. induction a as [|a IH]; intros v.
  - cbn [Nat.add le_digits app]. change (256 ^ Z.of_nat 0) with 1.
    rewrite Z.div_1_r. reflexivity.
  - cbn [Nat.add le_digits app]. f_equal. rewrite IH. f_equal. f_equal.
    rewrite Z.div_div by lia. f_equal.
    replace (Z.of_nat (S a)) with (1 + Z.of_nat a) by lia.
    rewrite Z.pow_add_r by lia. reflexivity.
Qed.

Lemma le_digits_words (n : nat) (v : Z) :
  le_digits (4 * n) v = bytes_join (map (le_digits 4) (words_le n v)).
Proof.
  unfold bytes_join. revert v. induction n as [|n IH]; intros v; [reflexivity|].
  replace (4 * S n)%nat with (4 + 4 * n)%nat by lia.
  rewrite le_digits_app. cbn [words_le map concat].
  change (256 ^ Z.of_nat 4) with (2 ^ 32).
  rewrite <- IH. f_equal.
  change (2 ^ 32) with (256 ^ Z.of_nat 4). symmetry. apply le_digits_mod.
Qed.

Lemma words_le_range (n : nat) (v : Z) :
  Forall (fun x => 0 <= x < 2 ^ 32) (words_le n v).
Proof.
  revert v. induction n as [|n IH]; intros v; constructor; [|apply IH].
  apply Z.mod_pos_bound. lia.
Qed.

Lemma words_le_seq (n : nat) (v : Z) :
  words_le n v = map (fun j => v / 2 ^ (32 * Z.of_nat j) mod 2 ^ 32) (seq 0 n).
Proof.
  revert v. induction n as [|n IH]; intros v; [reflexivity|].
  cbn [words_le seq map]. f_equal.
  - change (2 ^ (32 * Z.of_nat 0)) with 1. rewrite Z.div_1_r. reflexivity.
  - rewrite IH, <- seq_shift, map_map. apply map_ext. intros j.
    rewrite Z.div_div by lia. f_equal. f_equal.
    replace (32 * Z.of_nat (S j)) with (32 + 32 * Z.of_nat j) by lia.
    rewrite Z.pow_add_r by lia. reflexivity.
Qed.

(** PUF mode is Block mode on the 22 words of the input, least significant
    word first: serializing the 704-bit integer whole, little-endian, gives
    the bytes that feeding its 32-bit words one by one gives (the two
    hardware paths of the docstrings meet in the same digest). *)
Theorem puf_mode_is_block_mode_on_words (prim : bytes -> bytes) (V : Z) (w : world) :
  0 <= V < 2 ^ 704 ->
  SHA3_512_Hardware.hash_puf_mode prim V w
  = SHA3_512_Hardware.hash_block_mode prim
      (map (fun j => V / 2 ^ (32 * Z.of_nat j) mod 2 ^ 32) (seq 0 22)) w.
Proof.
  intros HV. rewrite <- words_le_seq.
  rewrite (hash_puf_mode_run prim V w HV).
  rewrite (hash_block_mode_run prim _ w (words_le_range 22 V)).
  change 88%nat with (4 * 22)%nat. rewrite le_digits_words. reflexivity.
Qed.

Lemma puf_mode_is_block_mode_on_words_witness :
  0 <= puf_data_1 < 2 ^ 704
  /\ SHA3_512_Hardware.hash_puf_mode Keccak.sha3_512 puf_data_1 empty_world
     = SHA3_512_Hardware.hash_block_mode Keccak.sha3_512
         (map (fun j => puf_data_1 / 2 ^ (32 * Z.of_nat j) mod 2 ^ 32) (seq 0 22))
         empty_world.
Proof.
  assert (H : 0 <= puf_data_1 < 2 ^ 704) by (unfold puf_data_1; lia).
  split; [exact H|].
  apply (puf_mode_is_block_mode_on_words Keccak.sha3_512 puf_data_1 empty_world H).
Defined.

(** ** The hashing modes and [hash_bytes] *)

Lemma hash_bytes_run (prim : bytes -> bytes) (data : bytes) (w : world) :
  SHA3_512_Hardware.hash_bytes prim data w = (Ok (prim data), after_hash w data).
Proof. apply hash_run. Qed.

Lemma words_bytes_app (W1 W2 : list Z) :
  bytes_join (map (le_digits 4) (W1 ++ W2))
  = bytes_join (map (le_digits 4) W1) ++ bytes_join (map (le_digits 4) W2).
Proof.
  unfold bytes_join. rewrite map_app. apply concat_app.
Qed.

(** Block mode is [hash_bytes] on the encoded words, and encoding goes
    through concatenation: hashing the words [W1 ++ W2] is hashing the
    bytes of [W1] followed by the bytes of [W2]; with no words at all the
    empty byte string is hashed. *)
Theorem block_mode_is_hash_bytes (prim : bytes -> bytes) (W1 W2 : list Z) (w : world) :
  Forall (fun x => 0 <= x < 2 ^ 32) W1 ->
  Forall (fun x => 0 <= x < 2 ^ 32) W2 ->
  exists b1 b2,
    SHA3_512_Hardware.hash_block_mode prim W1 w = SHA3_512_Hardware.hash_bytes prim b1 w
    /\ SHA3_512_Hardware.hash_block_mode prim W2 w = SHA3_512_Hardware.hash_bytes prim b2 w
    /\ SHA3_512_Hardware.hash_block_mode prim (W1 ++ W2) w
       = SHA3_512_Hardware.hash_bytes prim (b1 ++ b2) w
    /\ length b1 = (4 * length W1)%nat
    /\ length b2 = (4 * length W2)%nat
    /\ SHA3_512_Hardware.hash_block_mode prim [] w = SHA3_512_Hardware.hash_bytes prim [] w.
Proof.
  intros H1 H2.
  exists (bytes_join (map (le_digits 4) W1)), (bytes_join (map (le_digits 4) W2)).
  rewrite !hash_bytes_run.
  rewrite (hash_block_mode_run prim W1 w H1), (hash_block_mode_run prim W2 w H2).
  rewrite (hash_block_mode_run prim (W1 ++ W2) w) by (apply Forall_app; auto).
  rewrite (hash_block_mode_run prim [] w) by constructor.
  rewrite words_bytes_app, !words_bytes_length.
  repeat (split; [reflexivity|]). reflexivity.
Qed.

Lemma block_mode_is_hash_bytes_witness :
  Forall (fun x => 0 <= x < 2 ^ 32) message_words
  /\ Forall (fun x => 0 <= x < 2 ^ 32) words_5
  /\ exists b1 b2,
       SHA3_512_Hardware.hash_block_mode Keccak.sha3_512 message_words empty_world
       = SHA3_512_Hardware.hash_bytes Keccak.sha3_512 b1 empty_world
       /\ SHA3_512_Hardware.hash_block_mode Keccak.sha3_512 words_5 empty_world
          = SHA3_512_Hardware.hash_bytes Keccak.sha3_512 b2 empty_world
       /\ SHA3_512_Hardware.hash_block_mode Keccak.sha3_512 (message_words ++ words_5)
            empty_world
          = SHA3_512_Hardware.hash_bytes Keccak.sha3_512 (b1 ++ b2) empty_world
       /\ length b1 = (4 * length message_words)%nat
       /\ length b2 = (4 * length words_5)%nat
       /\ SHA3_512_Hardware.hash_block_mode Keccak.sha3_512 [] empty_world
          = SHA3_512_Hardware.hash_bytes Keccak.sha3_512 [] empty_world.
Proof.
  assert (H1 : Forall (fun x => 0 <= x < 2 ^ 32) message_words)
    by (repeat constructor; unfold message_words; lia).
  assert (H2 : Forall (fun x => 0 <= x < 2 ^ 32) words_5)
    by (repeat constructor; unfold words_5; lia).
  split; [exact H1|]. split; [exact H2|].
  apply (block_mode_is_hash_bytes Keccak.sha3_512 message_words words_5 empty_world H1 H2).
Defined.

(** ** Error behaviour of the entry points *)

Lemma hash_puf_mode_raise (prim : bytes -> bytes) (V : Z) (w : world) :
  ~ 0 <= V < 2 ^ 704 ->
  exists msg,
    SHA3_512_Hardware.hash_puf_mode prim V w = (Raise (OverflowError msg), w).
Proof.
  intros HV. destruct (to_bytes_out_of_range V 88 little HV) as [msg Hmsg].
  exists msg. unfold SHA3_512_Hardware.hash_puf_mode.
  erewrite bind_raise; [reflexivity|]. rewrite lift_run, Hmsg. reflexivity.
Qed.

(** PUF mode on an integer that does not fit 704 bits: a negative input and
    an input of [2^704] or more make [to_bytes] raise [OverflowError], each
    with its own message, and the world is left as it was: nothing is
    hashed and the input is not reduced modulo [2^704]. *)
Theorem puf_mode_out_of_range (prim : bytes -> bytes) (V : Z) (w : world) :
  (V < 0 ->
   SHA3_512_Hardware.hash_puf_mode prim V w
   = (Raise (OverflowError "can't convert negative int to unsigned"), w))
  /\ (2 ^ 704 <= V ->
      SHA3_512_Hardware.hash_puf_mode prim V w
      = (Raise (OverflowError "int too big to convert"), w)).
Proof.
  split; intros HV; unfold SHA3_512_Hardware.hash_puf_mode;
    (erewrite bind_raise; [reflexivity|]); rewrite lift_run; unfold to_bytes.
  - destruct (Z.ltb_spec V 0); [reflexivity|lia].
  - destruct (Z.ltb_spec V 0); [lia|].
    destruct (Z.leb_spec (256 ^ Z.of_nat 88) V) as [_|Hlt]; [reflexivity|].
    change (256 ^ Z.of_nat 88) with (2 ^ 704) in Hlt. lia.
Qed.

Lemma puf_mode_out_of_range_witness :
  (-1 < 0
   /\ SHA3_512_Hardware.hash_puf_mode Keccak.sha3_512 (-1) empty_world
      = (Raise (OverflowError "can't convert negative int to unsigned"), empty_world))
  /\ (2 ^ 704 <= 2 ^ 704
      /\ SHA3_512_Hardware.hash_puf_mode Keccak.sha3_512 (2 ^ 704) empty_world
         = (Raise (OverflowError "int too big to convert"), empty_world)).
Proof.
  assert (H1 : -1 < 0) by lia.
  assert (H2 : 2 ^ 704 <= 2 ^ 704) by lia.
  split; (split; [assumption|]).
  - apply (proj1 (puf_mode_out_of_range Keccak.sha3_512 (-1) empty_world) H1).
  - apply (proj2 (puf_mode_out_of_range Keccak.sha3_512 (2 ^ 704) empty_world) H2).
Defined.

(** What the constructor does to the rest of the world, whether it returns
    or raises: it makes no call into [hashlib] and every object that was
    there keeps its attributes. *)
Lemma new_frame (key : pyval) (w w' : world) (r : result loc) :
  HMAC_SHA3_512.new key w = (r, w') ->
  hash_trace w' = hash_trace w
  /\ forall l, is_Some (heap w !! l) -> heap w' !! l = heap w !! l.
Proof.
  assert (Hfresh : forall l, is_Some (heap w !! l) -> fresh (dom (heap w)) <> l).
  { intros l Hl Heq. apply (is_fresh (dom (heap w))). rewrite Heq.
    apply elem_of_dom. exact Hl. }
  assert (Halloc : forall l, is_Some (heap w !! l) ->
            (<[fresh (dom (heap w)) := ∅]> (heap w)) !! l = heap w !! l).
  { intros l Hl. apply lookup_insert_ne, Hfresh, Hl. }
  assert (Hset : forall k l, is_Some (heap w !! l) ->
            heap (snd ((self ← new_object; _ ← setattr self "key" k; ret self) w)) !! l
            = heap w !! l).
  { intros k l Hl. unfold mbind, M_bind, bind, new_object, setattr, ret.
    cbn [heap snd fst]. rewrite !lookup_insert_ne by (apply Hfresh, Hl). reflexivity. }
  unfold HMAC_SHA3_512.new, HMAC_SHA3_512.__init__.
  destruct key as [z|k| |].
  - destruct (to_bytes z 64 big) as [b|e] eqn:E; intros [= <- <-].
    + split; [reflexivity|]. intros l Hl. apply (Hset b l Hl).
    + split; [reflexivity|]. intros l Hl. apply (Halloc l Hl).
  - destruct (length k =? 64)%nat; intros [= <- <-].
    + split; [reflexivity|]. intros l Hl. apply (Hset k l Hl).
    + split; [reflexivity|]. intros l Hl. apply (Halloc l Hl).
  - intros [= <- <-]. split; [reflexivity|]. intros l Hl. apply (Halloc l Hl).
  - intros [= <- <-]. split; [reflexivity|]. intros l Hl. apply (Halloc l Hl).
Qed.

(** The constructor returns an instance exactly for an integer in
    [[0, 2^512)] or a bytes object of 64 bytes.  Any other integer raises
    [OverflowError], any other bytes object [ValueError], and a key that is
    neither (a list, say) [TypeError]; in every case nothing is hashed. *)
Theorem constructor_accepts_exactly (key : pyval) (w : world) :
  ((exists self w', HMAC_SHA3_512.new key w = (Ok self, w'))
   <-> match key with
       | PyInt z => 0 <= z < 2 ^ 512
       | PyBytes b => length b = 64%nat
       | _ => False
       end)
  /\ (forall e w', HMAC_SHA3_512.new key w = (Raise e, w') ->
        hash_trace w' = hash_trace w
        /\ match key with
           | PyInt _ => exists msg, e = OverflowError msg
           | PyBytes _ => exists msg, e = ValueError msg
           | _ => e = TypeError "Key must be bytes or int"
           end).
Proof.
  split.
  - split.
    + intros (self & w' & Hnew). destruct key as [z|k| |]; try discriminate.
      * destruct (decide (0 <= z < 2 ^ 512)) as [Hz|Hz]; [exact Hz|].
        destruct (new_int_raise w z Hz) as (msg & w1 & Hr & _). congruence.
      * destruct (decide (length k = 64%nat)) as [Hk|Hk]; [exact Hk|].
        destruct (new_bytes_raise w k Hk) as (w1 & Hr & _). congruence.
    + destruct key as [z|k| |]; try contradiction.
      * intros Hz. rewrite (new_int_run w z Hz).
        destruct (new_bytes_run w (rev (le_digits 64 z))) as (self & w' & Hnew & _).
        { rewrite length_rev. apply le_digits_length. }
        eauto.
      * intros Hk. destruct (new_bytes_run w k Hk) as (self & w' & Hnew & _). eauto.
  - intros e w' Hnew. split; [apply (new_frame key w w' _ Hnew)|].
    revert Hnew. unfold HMAC_SHA3_512.new, HMAC_SHA3_512.__init__.
    destruct key as [z|k| |].
    + unfold to_bytes. destruct (z <? 0); [intros [= <- _]; eauto|].
      destruct (256 ^ Z.of_nat 64 <=? z); [intros [= <- _]; eauto|discriminate].
    + destruct (length k =? 64)%nat; [discriminate|intros [= <- _]; eauto].
    + intros [= <- _]. reflexivity.
    + intros [= <- _]. reflexivity.
Qed.

Lemma constructor_accepts_exactly_witness :
  length key_bytes = 64%nat
  /\ (exists self w', HMAC_SHA3_512.new (PyBytes key_bytes) empty_world = (Ok self, w'))
  /\ HMAC_SHA3_512.new (PyList message_words) empty_world
     = (Raise (TypeError "Key must be bytes or int"),
        snd (HMAC_SHA3_512.new (PyList message_words) empty_world))
  /\ hash_trace (snd (HMAC_SHA3_512.new (PyList message_words) empty_world))
     = hash_trace empty_world.
Proof.
  assert (H1 : length key_bytes = 64%nat) by reflexivity.
  assert (H2 : HMAC_SHA3_512.new (PyList message_words) empty_world
               = (Raise (TypeError "Key must be bytes or int"),
                  snd (HMAC_SHA3_512.new (PyList message_words) empty_world)))
    by reflexivity.
  split; [exact H1|]. split.
  - apply (proj2 (proj1 (constructor_accepts_exactly (PyBytes key_bytes) empty_world)) H1).
  - split; [exact H2|].
    apply (proj1 (proj2 (constructor_accepts_exactly (PyList message_words) empty_world)
                    _ _ H2)).
Defined.





(** ** Instances do not interfere *)

Lemma new_ok_fresh (key : pyval) (w w1 : world) (self : loc) :
  HMAC_SHA3_512.new key w = (Ok self, w1) -> heap w !! self = None.
Proof.
  assert (Hstore : forall k,
    (l ← new_object; _ ← setattr l "key" k; ret l) w = (Ok self, w1) ->
    heap w !! self = None).
  { intros k Hrun. destruct (new_stores w k) as (w' & Hrun' & _ & Hnone & _).
    rewrite Hrun in Hrun'. injection Hrun' as -> ->. exact Hnone. }
  destruct key as [z|k| |]; unfold HMAC_SHA3_512.new, HMAC_SHA3_512.__init__.
  - destruct (to_bytes z 64 big) as [b|e] eqn:E; [|discriminate]. apply Hstore.
  - destruct (length k =? 64)%nat; [|discriminate]. apply Hstore.
  - discriminate.
  - discriminate.
Qed.

Lemma holds_key_is_Some (w : world) (self : loc) (k : bytes) :
  holds_key w self k -> is_Some (heap w !! self).
Proof.
  unfold holds_key. destruct (heap w !! self); [eauto|discriminate].
Qed.

(** The digest [compute] returns, or the exception it raises, depends on
    the world only through the key the instance holds. *)
Lemma compute_result_by_key (prim : bytes -> bytes) (self : loc) (k : bytes)
    (message : pyval) (w1 w2 : world) :
  holds_key w1 self k -> holds_key w2 self k ->
  fst (HMAC_SHA3_512.compute prim self message w1)
  = fst (HMAC_SHA3_512.compute prim self message w2).
Proof.
  intros H1 H2. destruct message as [z|m|ws| ]; [reflexivity| | |reflexivity].
  - rewrite (compute_bytes_run prim w1 self k m H1).
    rewrite (compute_bytes_run prim w2 self k m H2). reflexivity.
  - rewrite (compute_list_run prim w1 self k ws H1).
    rewrite (compute_list_run prim w2 self k ws H2).
    destruct (result_mapM (fun word => item_to_bytes word 4 little) ws); reflexivity.
Qed.

(** Constructing another instance, successfully or not, leaves an existing
    instance alone: it keeps its key, a new instance is a different object,
    and [compute] on the existing one gives what it gave before. *)
Theorem instances_are_independent (prim : bytes -> bytes) (key1 key2 : pyval)
    (w w1 w2 : world) (self1 : loc) (r : result loc) :
  HMAC_SHA3_512.new key1 w = (Ok self1, w1) ->
  HMAC_SHA3_512.new key2 w1 = (r, w2) ->
  (forall k, holds_key w1 self1 k -> holds_key w2 self1 k)
  /\ (forall self2, r = Ok self2 -> self2 <> self1)
  /\ (forall message,
        fst (HMAC_SHA3_512.compute prim self1 message w2)
        = fst (HMAC_SHA3_512.compute prim self1 message w1)).
Proof.
  intros Hnew1 Hnew2.
  destruct (new_ok_stores key1 w w1 self1 Hnew1) as (k1 & _ & Hk1).
  destruct (new_frame key2 w1 w2 r Hnew2) as (_ & Hframe).
  assert (Hkeep : forall k, holds_key w1 self1 k -> holds_key w2 self1 k).
  { intros k Hk. unfold holds_key in *.
    rewrite (Hframe self1 (holds_key_is_Some w1 self1 k1 Hk1)). exact Hk. }
  split; [exact Hkeep|]. split.
  - intros self2 -> ->. apply new_ok_fresh in Hnew2.
    destruct (holds_key_is_Some w1 self1 k1 Hk1) as [d Hd]. congruence.
  - intros message.
    apply (compute_result_by_key prim self1 k1 message w2 w1 (Hkeep k1 Hk1) Hk1).
Qed.

Lemma instances_are_independent_witness :
  HMAC_SHA3_512.new (PyBytes key_bytes) empty_world = (Ok 0%nat, keyed_world)
  /\ HMAC_SHA3_512.new (PyInt 7) keyed_world
     = (Ok 1%nat, snd (HMAC_SHA3_512.new (PyInt 7) keyed_world))
  /\ (forall k, holds_key keyed_world 0%nat k ->
        holds_key (snd (HMAC_SHA3_512.new (PyInt 7) keyed_world)) 0%nat k)
  /\ (forall self2, Ok 1%nat = Ok self2 -> self2 <> 0%nat)
  /\ (forall message,
        fst (HMAC_SHA3_512.compute Keccak.sha3_512 0%nat message
               (snd (HMAC_SHA3_512.new (PyInt 7) keyed_world)))
        = fst (HMAC_SHA3_512.compute Keccak.sha3_512 0%nat message keyed_world)).
Proof.
  assert (H1 : HMAC_SHA3_512.new (PyBytes key_bytes) empty_world = (Ok 0%nat, keyed_world))
    by (vm_compute; reflexivity).
  assert (H2 : HMAC_SHA3_512.new (PyInt 7) keyed_world
               = (Ok 1%nat, snd (HMAC_SHA3_512.new (PyInt 7) keyed_world)))
    by (vm_compute; reflexivity).
  split; [exact H1|]. split; [exact H2|].
  apply (instances_are_independent Keccak.sha3_512 (PyBytes key_bytes) (PyInt 7)
           empty_world keyed_world _ 0%nat (Ok 1%nat) H1 H2).
Defined.

(** ** What is hashed determines the input *)

Lemma Z_of_byte_inj (a b : byte) : Z_of_byte a = Z_of_byte b -> a = b.
Proof.
  intros H. rewrite <- (byte_of_Z_of_byte a), <- (byte_of_Z_of_byte b). congruence.
Qed.

Lemma after_hash_inj (w : world) (d1 d2 : bytes) :
  hash_trace (after_hash w d1) = hash_trace (after_hash w d2) -> d1 = d2.
Proof.
  unfold after_hash, hash_events. cbn [hash_trace]. intros H.
  apply app_inv_head in H. congruence.
Qed.

Lemma xor_block_inj (K1 K2 : bytes) :
  length K1 = 64%nat -> length K2 = 64%nat ->
  Spec.xor_block K1 = Spec.xor_block K2 -> K1 = K2.
Proof.
  intros H1 H2 Heq.
  assert (Hp : Spec.padded_key_block K1 = Spec.padded_key_block K2).
  { rewrite <- (xor_bytes_involutive (Spec.padded_key_block K1) Spec.inner_pad),
            <- (xor_bytes_involutive (Spec.padded_key_block K2) Spec.inner_pad).
    - unfold Spec.xor_block in Heq. rewrite Heq. reflexivity.
    - unfold Spec.padded_key_block, Spec.inner_pad.
      rewrite length_app, !length_replicate, H2. reflexivity.
    - unfold Spec.padded_key_block, Spec.inner_pad.
      rewrite length_app, !length_replicate, H1. reflexivity. }
  unfold Spec.padded_key_block in Hp. apply app_inv_tail in Hp. exact Hp.
Qed.

(** The bytes [compute] hands to SHA3-512 determine both the key and the
    message: with 64-byte keys, two calls that feed the hash the same data
    have the same key and the same message, so two different (key, message)
    pairs can only collide where SHA3-512 itself collides. *)
Theorem hashed_data_determines_key_and_message (prim : bytes -> bytes)
    (self1 self2 : loc) (K1 K2 M1 M2 : bytes) (w : world) :
  length K1 = 64%nat -> length K2 = 64%nat ->
  holds_key w self1 K1 -> holds_key w self2 K2 ->
  hash_trace (snd (HMAC_SHA3_512.compute prim self1 (PyBytes M1) w))
  = hash_trace (snd (HMAC_SHA3_512.compute prim self2 (PyBytes M2) w)) ->
  K1 = K2 /\ M1 = M2.
Proof.
  intros HK1 HK2 Hs1 Hs2.
  rewrite (compute_bytes_run prim w self1 K1 M1 Hs1).
  rewrite (compute_bytes_run prim w self2 K2 M2 Hs2). cbn [snd].
  intros Heq. apply after_hash_inj in Heq.
  apply app_inj_1 in Heq as [Hb Hm];
    [|rewrite !xor_block_length by assumption; reflexivity].
  split; [apply xor_block_inj; assumption|exact Hm].
Qed.

Lemma words_bytes_inj (W1 W2 : list Z) :
  Forall (fun x => 0 <= x < 2 ^ 32) W1 ->
  Forall (fun x => 0 <= x < 2 ^ 32) W2 ->
  bytes_join (map (le_digits 4) W1) = bytes_join (map (le_digits 4) W2) ->
  W1 = W2.
Proof.
  unfold bytes_join. intros H1. revert W2.
  induction H1 as [|a W1 Ha _ IH]; intros W2 H2 Heq.
  - destruct H2 as [|b W2 Hb _]; [reflexivity|]. discriminate.
  - destruct H2 as [|b W2 Hb H2]; [discriminate|].
    cbn [map concat] in Heq.
    apply app_inj_1 in Heq as [Hab Hrest]; [|rewrite !le_digits_length; reflexivity].
    f_equal; [|apply IH; assumption].
    rewrite <- (decode_le_digits 4 a Ha), <- (decode_le_digits 4 b Hb), Hab.
    reflexivity.
Qed.

(** Block mode and PUF mode serialize without loss: two in-range word
    lists, or two integers below [2^704], that feed the hash the same bytes
    are equal (so [[w]] and [[w; 0]] are hashed differently, and no two
    PUF inputs share a digest unless SHA3-512 collides). *)
Theorem hashed_data_determines_input (prim : bytes -> bytes) (w : world) :
  (forall W1 W2,
     Forall (fun x => 0 <= x < 2 ^ 32) W1 ->
     Forall (fun x => 0 <= x < 2 ^ 32) W2 ->
     hash_trace (snd (SHA3_512_Hardware.hash_block_mode prim W1 w))
     = hash_trace (snd (SHA3_512_Hardware.hash_block_mode prim W2 w)) ->
     W1 = W2)
  /\ (forall V1 V2,
        0 <= V1 < 2 ^ 704 -> 0 <= V2 < 2 ^ 704 ->
        hash_trace (snd (SHA3_512_Hardware.hash_puf_mode prim V1 w))
        = hash_trace (snd (SHA3_512_Hardware.hash_puf_mode prim V2 w)) ->
        V1 = V2).
Proof.
  split.
  - intros W1 W2 H1 H2.
    rewrite (hash_block_mode_run prim W1 w H1), (hash_block_mode_run prim W2 w H2).
    cbn [snd]. intros Heq. apply after_hash_inj in Heq.
    apply words_bytes_inj; assumption.
  - intros V1 V2 H1 H2.
    rewrite (hash_puf_mode_run prim V1 w H1), (hash_puf_mode_run prim V2 w H2).
    cbn [snd]. intros Heq. apply after_hash_inj in Heq.
    rewrite <- (decode_le_digits 88 V1 H1), <- (decode_le_digits 88 V2 H2), Heq.
    reflexivity.
Qed.

Lemma hashed_data_determines_key_and_message_witness :
  length key_bytes = 64%nat
  /\ holds_key (snd (HMAC_SHA3_512.new (PyInt key_int) keyed_world)) 0%nat key_bytes
  /\ holds_key (snd (HMAC_SHA3_512.new (PyInt key_int) keyed_world)) 1%nat key_bytes
  /\ key_bytes = key_bytes /\ [xef; xbe] = [xef; xbe].
Proof.
  assert (H0 : holds_key (snd (HMAC_SHA3_512.new (PyInt key_int) keyed_world))
                 0%nat key_bytes) by (vm_compute; reflexivity).
  assert (H1 : holds_key (snd (HMAC_SHA3_512.new (PyInt key_int) keyed_world))
                 1%nat key_bytes) by (vm_compute; reflexivity).
  split; [reflexivity|]. split; [exact H0|]. split; [exact H1|].
  apply (hashed_data_determines_key_and_message Keccak.sha3_512 0%nat 1%nat
           key_bytes key_bytes [xef; xbe] [xef; xbe]
           (snd (HMAC_SHA3_512.new (PyInt key_int) keyed_world))
           eq_refl eq_refl H0 H1).
  vm_compute. reflexivity.
Defined.

Lemma hashed_data_determines_input_witness :
  Forall (fun x => 0 <= x < 2 ^ 32) message_words
  /\ 0 <= puf_data_1 < 2 ^ 704
  /\ message_words = message_words /\ puf_data_1 = puf_data_1.
Proof.
  assert (H1 : Forall (fun x => 0 <= x < 2 ^ 32) message_words)
    by (repeat constructor; unfold message_words; lia).
  assert (H2 : 0 <= puf_data_1 < 2 ^ 704) by (unfold puf_data_1; lia).
  split; [exact H1|]. split; [exact H2|]. split.
  - apply (proj1 (hashed_data_determines_input Keccak.sha3_512 empty_world)
             message_words message_words H1 H1 eq_refl).
  - apply (proj2 (hashed_data_determines_input Keccak.sha3_512 empty_world)
             puf_data_1 puf_data_1 H2 H2 eq_refl).
Defined.

(** ** The hexadecimal rendering *)

Lemma nibble_cases (z : Z) :
  0 <= z < 16 ->
  z = 0 \/ z = 1 \/ z = 2 \/ z = 3 \/ z = 4 \/ z = 5 \/ z = 6 \/ z = 7 \/
  z = 8 \/ z = 9 \/ z = 10 \/ z = 11 \/ z = 12 \/ z = 13 \/ z = 14 \/ z = 15.
Proof. lia. Qed.

Ltac each_nibble H :=
  apply nibble_cases in H;
  repeat (destruct H as [H|H]; [subst|]); [..|subst].

Lemma hex_digit_char (z : Z) :
  0 <= z < 16 ->
  exists c, hex_digit z = String c EmptyString
            /\ In c (chars "0123456789abcdef").
Proof.
  intros H. each_nibble H; (eexists; split; [reflexivity|]); simpl; tauto.
Qed.

Lemma hex_digit_inj (a b : Z) :
  0 <= a < 16 -> 0 <= b < 16 -> hex_digit a = hex_digit b -> a = b.
Proof.
  intros Ha Hb. each_nibble Ha; each_nibble Hb;
    intros Heq; first [reflexivity | (cbv in Heq; discriminate Heq)].
Qed.

Lemma byte_nibbles (x : byte) :
  0 <= Z_of_byte x / 16 < 16 /\ 0 <= Z_of_byte x mod 16 < 16.
Proof.
  pose proof (Z_of_byte_range x) as Hx. split.
  - split; [apply Z.div_pos; lia|apply Z.div_lt_upper_bound; lia].
  - apply Z.mod_pos_bound. lia.
Qed.

Lemma bytes_hex_cons (x : byte) (b : bytes) :
  exists c1 c2,
    bytes_hex (x :: b) = String c1 (String c2 (bytes_hex b))
    /\ hex_digit (Z_of_byte x / 16) = String c1 EmptyString
    /\ hex_digit (Z_of_byte x mod 16) = String c2 EmptyString
    /\ In c1 (chars "0123456789abcdef")
    /\ In c2 (chars "0123456789abcdef").
Proof.
  destruct (byte_nibbles x) as [Hhi Hlo].
  destruct (hex_digit_char _ Hhi) as (c1 & E1 & I1).
  destruct (hex_digit_char _ Hlo) as (c2 & E2 & I2).
  exists c1, c2. cbn [bytes_hex fold_right]. rewrite E1, E2.
  repeat split; assumption || reflexivity.
Qed.

Lemma bytes_hex_length (b : bytes) :
  String.length (bytes_hex b) = (2 * length b)%nat.
Proof.
  induction b as [|x b IH]; [reflexivity|].
  destruct (bytes_hex_cons x b) as (c1 & c2 & -> & _).
  cbn [String.length length]. rewrite IH. lia.
Qed.

Lemma bytes_hex_chars (b : bytes) :
  Forall (fun c => In c (chars "0123456789abcdef")) (chars (bytes_hex b)).
Proof.
  induction b as [|x b IH]; [constructor|].
  destruct (bytes_hex_cons x b) as (c1 & c2 & -> & _ & _ & I1 & I2).
  cbn [chars]. constructor; [exact I1|]. constructor; [exact I2|]. exact IH.
Qed.

Lemma bytes_hex_inj (a b : bytes) : bytes_hex a = bytes_hex b -> a = b.
Proof.
  revert b. induction a as [|x a IH]; intros [|y b] Heq.
  - reflexivity.
  - destruct (bytes_hex_cons y b) as (c1 & c2 & E & _). rewrite E in Heq. discriminate.
  - destruct (bytes_hex_cons x a) as (c1 & c2 & E & _). rewrite E in Heq. discriminate.
  - destruct (bytes_hex_cons x a) as (c1 & c2 & Ex & Hx1 & Hx2 & _).
    destruct (bytes_hex_cons y b) as (d1 & d2 & Ey & Hy1 & Hy2 & _).
    rewrite Ex, Ey in Heq. injection Heq as -> -> Hrest.
    destruct (byte_nibbles x) as [Hxh Hxl]. destruct (byte_nibbles y) as [Hyh Hyl].
    assert (Hhi : Z_of_byte x / 16 = Z_of_byte y / 16)
      by (apply hex_digit_inj; [assumption..|congruence]).
    assert (Hlo : Z_of_byte x mod 16 = Z_of_byte y mod 16)
      by (apply hex_digit_inj; [assumption..|congruence]).
    f_equal; [|apply IH; exact Hrest].
    apply Z_of_byte_inj.
    rewrite (Z.div_mod (Z_of_byte x) 16), (Z.div_mod (Z_of_byte y) 16) by lia.
    rewrite Hhi, Hlo. reflexivity.
Qed.

(** [compute_hex] on a valid message returns the digest as lowercase
    hexadecimal, two characters per byte: 128 characters of
    [0123456789abcdef] for a 64-byte digest, and no other byte string has
    the same rendering, so comparing hex strings is comparing digests. *)
Theorem compute_hex_format (prim : bytes -> bytes) (self : loc) (k : bytes)
    (message : pyval) (w : world) :
  (forall data, length (prim data) = 64%nat) ->
  holds_key w self k ->
  Spec.valid_message message ->
  exists tag w',
    HMAC_SHA3_512.compute prim self message w = (Ok tag, w')
    /\ HMAC_SHA3_512.compute_hex prim self message w = (Ok (bytes_hex tag), w')
    /\ String.length (bytes_hex tag) = 128%nat
    /\ Forall (fun c => In c (chars "0123456789abcdef")) (chars (bytes_hex tag))
    /\ (forall other, bytes_hex other = bytes_hex tag -> other = tag).
Proof.
  intros Hprim Hk Hvalid.
  assert (Hcompute : exists tag w',
    HMAC_SHA3_512.compute prim self message w = (Ok tag, w') /\ length tag = 64%nat).
  { destruct message as [z|m|items| ]; try contradiction.
    - rewrite (compute_bytes_run prim w self k m Hk). eauto.
    - destruct (valid_words_ints items Hvalid) as (ws & -> & Hws).
      rewrite (compute_words_run prim w self k ws Hk Hws).
      rewrite (compute_bytes_run prim w self k _ Hk). eauto. }
  destruct Hcompute as (tag & w' & Hrun & Htag).
  exists tag, w'. split; [exact Hrun|]. split.
  { unfold HMAC_SHA3_512.compute_hex. erewrite bind_ok by exact Hrun. reflexivity. }
  split; [rewrite bytes_hex_length, Htag; reflexivity|].
  split; [apply bytes_hex_chars|]. intros other. apply bytes_hex_inj.
Qed.

Lemma compute_hex_format_witness :
  (forall data, length (Keccak.sha3_512 data) = 64%nat)
  /\ holds_key keyed_world 0%nat key_bytes
  /\ Spec.valid_message (PyList message_words)
  /\ exists tag w',
       HMAC_SHA3_512.compute Keccak.sha3_512 0%nat (PyList message_words) keyed_world
       = (Ok tag, w')
       /\ HMAC_SHA3_512.compute_hex Keccak.sha3_512 0%nat (PyList message_words) keyed_world
          = (Ok (bytes_hex tag), w')
       /\ String.length (bytes_hex tag) = 128%nat
       /\ Forall (fun c => In c (chars "0123456789abcdef")) (chars (bytes_hex tag))
       /\ (forall other, bytes_hex other = bytes_hex tag -> other = tag).
Proof.
  assert (Hk : holds_key keyed_world 0%nat key_bytes) by (vm_compute; reflexivity).
  assert (Hv : Spec.valid_message (PyList message_words))
    by (apply valid_message_words; repeat constructor; unfold message_words; lia).
  split; [exact sha3_512_length|]. split; [exact Hk|]. split; [exact Hv|].
  apply (compute_hex_format Keccak.sha3_512 0%nat key_bytes (PyList message_words)
           keyed_world sha3_512_length Hk Hv).
Defined.

(** ** Integers from bytes *)

Lemma from_bytes_big (b : bytes) : from_bytes b big = Spec.decode_bytes_be b.
Proof. reflexivity. Qed.

Lemma decode_le_range (l : bytes) :
  0 <= Spec.decode_bytes_le l < 256 ^ Z.of_nat (length l).
Proof.
  induction l as [|b l IH]; cbn [Spec.decode_bytes_le fold_right length].
  - change (256 ^ Z.of_nat 0) with 1. lia.
  - fold (Spec.decode_bytes_le l).
    replace (Z.of_nat (S (length l))) with (1 + Z.of_nat (length l)) by lia.
    rewrite Z.pow_add_r by lia. change (256 ^ 1) with 256.
    pose proof (Z_of_byte_range b). nia.
Qed.

Lemma le_digits_decode (l : bytes) :
  le_digits (length l) (Spec.decode_bytes_le l) = l.
Proof.
  induction l as [|b l IH]; [reflexivity|].
  cbn [Spec.decode_bytes_le fold_right length le_digits].
  fold (Spec.decode_bytes_le l).
  pose proof (Z_of_byte_range b) as Hb. f_equal.
  - rewrite <- (Z.mod_small (Z_of_byte b) 256) at 1 by exact Hb.
    rewrite byte_of_Z_low. apply byte_of_Z_of_byte.
  - rewrite (Z.add_comm (Z_of_byte b)), (Z.mul_comm 256), Z_div_plus_full_l by lia.
    rewrite (Z.div_small (Z_of_byte b)) by exact Hb. rewrite Z.add_0_r. exact IH.
Qed.

Lemma from_bytes_range (b : bytes) :
  0 <= from_bytes b big < 256 ^ Z.of_nat (length b).
Proof.
  rewrite from_bytes_big. pose proof (decode_le_range (rev b)) as H.
  rewrite <- decode_be_rev, rev_involutive, length_rev in H. exact H.
Qed.

(** [int.from_bytes] and [int.to_bytes] undo each other, big-endian. *)
Lemma to_bytes_from_bytes (b : bytes) :
  to_bytes (from_bytes b big) (length b) big = Ok b.
Proof.
  rewrite (to_bytes_ok _ _ big (from_bytes_range b)). f_equal.
  rewrite from_bytes_big. pose proof (le_digits_decode (rev b)) as H.
  rewrite <- decode_be_rev, rev_involutive, length_rev in H.
  rewrite H. apply rev_involutive.
Qed.

Lemma from_bytes_to_bytes (v : Z) (n : nat) (b : bytes) :
  to_bytes v n big = Ok b -> from_bytes b big = v.
Proof.
  unfold to_bytes. destruct (Z.ltb_spec v 0); [discriminate|].
  destruct (Z.leb_spec (256 ^ Z.of_nat n) v); [discriminate|].
  intros [= <-]. rewrite from_bytes_big, decode_be_rev.
  apply decode_le_digits. lia.
Qed.

(** ** Running the scripts *)

Lemma script_bind_returned {A B} (m : Script A) (k : A -> Script B)
    (w w' : world) (a : A) :
  m w = (Returned a, w') -> (m ≫= k) w = k a w'.
Proof.
  intros H. unfold mbind, Script_bind, script_bind. rewrite H. reflexivity.
Qed.

Lemma script_bind_raised {A B} (m : Script A) (k : A -> Script B)
    (w w' : world) (e : exn) :
  m w = (Raised e, w') -> (m ≫= k) w = (Raised e, w').
Proof.
  intros H. unfold mbind, Script_bind, script_bind. rewrite H. reflexivity.
Qed.

Lemma call_ok {A} (m : M A) (w w' : world) (a : A) :
  m w = (Ok a, w') -> call m w = (Returned a, w').
Proof. intros H. unfold call. rewrite H. reflexivity. Qed.

Lemma call_raise {A} (m : M A) (w w' : world) (e : exn) :
  m w = (Raise e, w') -> call m w = (Raised e, w').
Proof. intros H. unfold call. rewrite H. reflexivity. Qed.

Lemma for_each_getitems (items : list nat) (expected computed : bytes) (w : world) :
  Forall (fun i => (i < length expected)%nat /\ (i < length computed)%nat) items ->
  for_each items (fun i =>
    exp_byte ← getitem expected i;
    comp_byte ← getitem computed i;
    mret tt) w = (Returned tt, w).
Proof.
  induction 1 as [|i items [He Hc] _ IH]; [reflexivity|].
  cbn [for_each].
  destruct (lookup_lt_is_Some_2 expected i He) as [x Hx].
  destruct (lookup_lt_is_Some_2 computed i Hc) as [y Hy].
  erewrite script_bind_returned; [exact IH|].
  erewrite script_bind_returned by (unfold getitem; rewrite Hx; reflexivity).
  erewrite script_bind_returned by (unfold getitem; rewrite Hy; reflexivity).
  reflexivity.
Qed.

(** With 64 bytes on both sides the byte-by-byte comparison reads every
    index and returns. *)
Lemma show_differences_run (expected computed : bytes) (w : world) :
  length expected = 64%nat -> length computed = 64%nat ->
  show_differences expected computed w = (Returned tt, w).
Proof.
  intros He Hc. apply for_each_getitems.
  apply Forall_forall. intros i Hi. apply elem_of_seq in Hi. lia.
Qed.

(** What a script does once it has the digest in hand, for an expected
    value that fits 64 bytes. *)
Lemma compare_run (tag : bytes) (expected : Z) (w : world) :
  length tag = 64%nat ->
  0 <= expected < 2 ^ 512 ->
  (expected_bytes ← call (lift (to_bytes expected 64 big));
   show_differences expected_bytes tag;;
   mret false) w = (Returned false, w).
Proof.
  intros Htag Hexp.
  erewrite script_bind_returned
    by (apply call_ok; rewrite lift_run, (to_bytes_ok expected 64 big Hexp); reflexivity).
  erewrite script_bind_returned; [reflexivity|].
  apply show_differences_run; [|exact Htag].
  rewrite length_rev. apply le_digits_length.
Qed.

(** Equality of the integers is equality of the bytes. *)
Lemma match_iff_bytes (tag : bytes) (expected : Z) :
  length tag = 64%nat ->
  (from_bytes tag big =? expected) = true <-> to_bytes expected 64 big = Ok tag.
Proof.
  intros Htag. rewrite Z.eqb_eq. split.
  - intros <-. rewrite <- Htag. apply to_bytes_from_bytes.
  - apply from_bytes_to_bytes.
Qed.

Lemma mismatch_out_of_range (tag : bytes) (expected : Z) :
  length tag = 64%nat ->
  ~ 0 <= expected < 2 ^ 512 ->
  (from_bytes tag big =? expected) = false.
Proof.
  intros Htag Hexp. apply Z.eqb_neq. intros Heq.
  pose proof (from_bytes_range tag) as Hr. rewrite Htag in Hr.
  change (256 ^ Z.of_nat 64) with (2 ^ 512) in Hr. lia.
Qed.

(** ** [verify_with_hardware] (verify_hmac.py) *)

Lemma verify_with_hardware_step (prim : bytes -> bytes) (K : Z) (W : list Z)
    (E : Z) (w w0 w1 : world) (self : loc) (tag : bytes) :
  HMAC_SHA3_512.new (PyInt K) w = (Ok self, w0) ->
  HMAC_SHA3_512.compute prim self (PyList W) w0 = (Ok tag, w1) ->
  verify_hmac.verify_with_hardware prim K W E w
  = (expected_hmac_bytes ← call (lift (to_bytes E 64 big));
     if from_bytes tag big =? E then mret true
     else show_differences expected_hmac_bytes tag;; mret false) w1.
Proof.
  intros Hnew Hrun. unfold verify_hmac.verify_with_hardware.
  erewrite script_bind_returned by (apply call_ok; exact Hnew).
  erewrite script_bind_returned by (apply call_ok; exact Hrun).
  reflexivity.
Qed.

Lemma hmac_compute_int_words_run (prim : bytes -> bytes) (K : Z) (W : list Z)
    (w : world) :
  0 <= K < 2 ^ 512 ->
  Forall (fun x => 0 <= x < 2 ^ 32) W ->
  exists self w0 tag w1,
    HMAC_SHA3_512.new (PyInt K) w = (Ok self, w0)
    /\ HMAC_SHA3_512.compute prim self (PyList W) w0 = (Ok tag, w1)
    /\ hmac_compute prim (PyInt K) (PyList W) w = (Ok tag, w1)
    /\ tag = prim (Spec.xor_block (rev (le_digits 64 K)) ++ bytes_join (map (le_digits 4) W))
    /\ hash_trace w1
       = hash_trace w
         ++ hash_events (Spec.xor_block (rev (le_digits 64 K))
                         ++ bytes_join (map (le_digits 4) W)).
Proof.
  intros HK HW.
  destruct (new_bytes_run w (rev (le_digits 64 K))) as (self & w0 & Hnew & Hkey & Htr).
  { rewrite length_rev. apply le_digits_length. }
  rewrite <- (new_int_run w K HK) in Hnew.
  pose proof (compute_words_run prim w0 self _ W Hkey HW) as Hrun.
  rewrite (compute_bytes_run prim w0 self _ _ Hkey) in Hrun.
  eexists self, w0, _, _. split; [exact Hnew|]. split; [exact Hrun|].
  split; [rewrite (hmac_compute_step _ _ _ _ _ _ Hnew); exact Hrun|].
  split; [reflexivity|]. cbn [after_hash hash_trace]. rewrite Htr. reflexivity.
Qed.

(** [verify_with_hardware] compares byte for byte: for a key below [2^512],
    in-range words and an expected value below [2^512], it returns, with
    [True] exactly when the 64-byte big-endian form of the expected value
    is the digest [HMAC_SHA3_512(key).compute(message)] gives; in
    particular, checking a digest against itself passes, as in
    [example_verification]. *)
Theorem verify_with_hardware_byte_exact (prim : bytes -> bytes) (K : Z)
    (W : list Z) (E : Z) (w : world) :
  (forall data, length (prim data) = 64%nat) ->
  0 <= K < 2 ^ 512 ->
  Forall (fun x => 0 <= x < 2 ^ 32) W ->
  0 <= E < 2 ^ 512 ->
  exists tag w1 verdict,
    hmac_compute prim (PyInt K) (PyList W) w = (Ok tag, w1)
    /\ verify_hmac.verify_with_hardware prim K W E w = (Returned verdict, w1)
    /\ (verdict = true <-> to_bytes E 64 big = Ok tag)
    /\ verify_hmac.verify_with_hardware prim K W (from_bytes tag big) w
       = (Returned true, w1).
Proof.
  intros Hprim HK HW HE.
  destruct (hmac_compute_int_words_run prim K W w HK HW)
    as (self & w0 & tag & w1 & Hnew & Hrun & Hcall & Htag & _).
  assert (Hlen : length tag = 64%nat) by (rewrite Htag; apply Hprim).
  exists tag, w1, (from_bytes tag big =? E). split; [exact Hcall|].
  rewrite !(verify_with_hardware_step prim K W _ w w0 w1 self tag Hnew Hrun).
  split; [|split; [apply match_iff_bytes; exact Hlen|]].
  - destruct (from_bytes tag big =? E) eqn:Hm.
    + erewrite script_bind_returned
        by (apply call_ok; rewrite lift_run, (to_bytes_ok E 64 big HE); reflexivity).
      reflexivity.
    + apply compare_run; assumption.
  - rewrite Z.eqb_refl.
    erewrite script_bind_returned; [reflexivity|].
    apply call_ok. rewrite lift_run, <- Hlen. rewrite to_bytes_from_bytes. reflexivity.
Qed.

Lemma verify_with_hardware_byte_exact_witness :
  (forall data, length (Keccak.sha3_512 data) = 64%nat)
  /\ 0 <= key_int < 2 ^ 512
  /\ Forall (fun x => 0 <= x < 2 ^ 32) message_words
  /\ 0 <= 5 < 2 ^ 512
  /\ exists tag w1 verdict,
       hmac_compute Keccak.sha3_512 (PyInt key_int) (PyList message_words) empty_world
       = (Ok tag, w1)
       /\ verify_hmac.verify_with_hardware Keccak.sha3_512 key_int message_words 5
            empty_world = (Returned verdict, w1)
       /\ (verdict = true <-> to_bytes 5 64 big = Ok tag)
       /\ verify_hmac.verify_with_hardware Keccak.sha3_512 key_int message_words
            (from_bytes tag big) empty_world = (Returned true, w1).
Proof.
  assert (HK : 0 <= key_int < 2 ^ 512) by (unfold key_int; lia).
  assert (HW : Forall (fun x => 0 <= x < 2 ^ 32) message_words)
    by (repeat constructor; unfold message_words; lia).
  assert (HE : 0 <= 5 < 2 ^ 512) by lia.
  split; [exact sha3_512_length|]. split; [exact HK|]. split; [exact HW|].
  split; [exact HE|].
  apply (verify_with_hardware_byte_exact Keccak.sha3_512 key_int message_words 5
           empty_world sha3_512_length HK HW HE).
Defined.

(** An expected value that does not fit 64 bytes (negative, or [2^512] and
    more) does not make [verify_with_hardware] answer [False]: it raises
    [OverflowError], and only after the digest has been computed. *)
Theorem verify_with_hardware_expected_out_of_range (prim : bytes -> bytes) (K : Z)
    (W : list Z) (E : Z) (w : world) :
  0 <= K < 2 ^ 512 ->
  Forall (fun x => 0 <= x < 2 ^ 32) W ->
  ~ 0 <= E < 2 ^ 512 ->
  exists msg tag w1,
    hmac_compute prim (PyInt K) (PyList W) w = (Ok tag, w1)
    /\ verify_hmac.verify_with_hardware prim K W E w = (Raised (OverflowError msg), w1)
    /\ hash_trace w1
       = hash_trace w
         ++ hash_events (Spec.xor_block (rev (le_digits 64 K))
                         ++ bytes_join (map (le_digits 4) W)).
Proof.
  intros HK HW HE.
  destruct (hmac_compute_int_words_run prim K W w HK HW)
    as (self & w0 & tag & w1 & Hnew & Hrun & Hcall & _ & Htr).
  destruct (to_bytes_out_of_range E 64 big HE) as [msg Hmsg].
  exists msg, tag, w1. split; [exact Hcall|]. split; [|exact Htr].
  rewrite (verify_with_hardware_step prim K W E w w0 w1 self tag Hnew Hrun).
  erewrite script_bind_raised; [reflexivity|].
  apply call_raise. rewrite lift_run, Hmsg. reflexivity.
Qed.

Lemma verify_with_hardware_expected_out_of_range_witness :
  0 <= key_int < 2 ^ 512
  /\ Forall (fun x => 0 <= x < 2 ^ 32) message_words
  /\ ~ 0 <= 2 ^ 512 < 2 ^ 512
  /\ exists msg tag w1,
       hmac_compute Keccak.sha3_512 (PyInt key_int) (PyList message_words) empty_world
       = (Ok tag, w1)
       /\ verify_hmac.verify_with_hardware Keccak.sha3_512 key_int message_words (2 ^ 512)
            empty_world = (Raised (OverflowError msg), w1)
       /\ hash_trace w1
          = hash_trace empty_world
            ++ hash_events (Spec.xor_block (rev (le_digits 64 key_int))
                            ++ bytes_join (map (le_digits 4) message_words)).
Proof.
  assert (HK : 0 <= key_int < 2 ^ 512) by (unfold key_int; lia).
  assert (HW : Forall (fun x => 0 <= x < 2 ^ 32) message_words)
    by (repeat constructor; unfold message_words; lia).
  assert (HE : ~ 0 <= 2 ^ 512 < 2 ^ 512) by lia.
  split; [exact HK|]. split; [exact HW|]. split; [exact HE|].
  apply (verify_with_hardware_expected_out_of_range Keccak.sha3_512 key_int
           message_words (2 ^ 512) empty_world HK HW HE).
Defined.

(** Invalid inputs come first: a key outside [[0, 2^512)], or a word
    outside [[0, 2^32)], makes [verify_with_hardware] raise [OverflowError]
    before anything is hashed, whatever the expected value. *)
Theorem verify_with_hardware_invalid_input (prim : bytes -> bytes) (K : Z)
    (W : list Z) (E : Z) (w : world) :
  ~ 0 <= K < 2 ^ 512 \/ Exists (fun x => ~ 0 <= x < 2 ^ 32) W ->
  exists msg w',
    verify_hmac.verify_with_hardware prim K W E w = (Raised (OverflowError msg), w')
    /\ hash_trace w' = hash_trace w.
Proof.
  intros Hbad. unfold verify_hmac.verify_with_hardware.
  destruct (decide (0 <= K < 2 ^ 512)) as [HK|HK].
  - destruct Hbad as [Hbad|HW]; [contradiction|].
    destruct (new_bytes_run w (rev (le_digits 64 K))) as (self & w0 & Hnew & _ & Htr).
    { rewrite length_rev. apply le_digits_length. }
    rewrite <- (new_int_run w K HK) in Hnew.
    destruct (compute_words_raise prim w0 self W HW) as [msg Hmsg].
    exists msg, w0. split; [|exact Htr].
    erewrite script_bind_returned by (apply call_ok; exact Hnew).
    erewrite script_bind_raised; [reflexivity|]. apply call_raise. exact Hmsg.
  - destruct (new_int_raise w K HK) as (msg & w' & Hnew & Htr).
    exists msg, w'. split; [|exact Htr].
    erewrite script_bind_raised; [reflexivity|]. apply call_raise. exact Hnew.
Qed.

Lemma verify_with_hardware_invalid_input_witness :
  (~ 0 <= key_int < 2 ^ 512 \/ Exists (fun x => ~ 0 <= x < 2 ^ 32) [0x100000000])
  /\ exists msg w',
       verify_hmac.verify_with_hardware Keccak.sha3_512 key_int [0x100000000] 5 empty_world
       = (Raised (OverflowError msg), w')
       /\ hash_trace w' = hash_trace empty_world.
Proof.
  assert (H : ~ 0 <= key_int < 2 ^ 512 \/ Exists (fun x => ~ 0 <= x < 2 ^ 32) [0x100000000])
    by (right; apply Exists_cons_hd; lia).
  split; [exact H|].
  apply (verify_with_hardware_invalid_input Keccak.sha3_512 key_int [0x100000000] 5
           empty_world H).
Defined.

(** ** [verify_puf_mode] and [verify_block_mode] (verify_keccak.py) *)

Lemma keccak_compare_in_range (tag : bytes) (E : Z) (w : world) :
  length tag = 64%nat ->
  0 <= E < 2 ^ 512 ->
  (if from_bytes tag big =? E then mret true
   else expected_bytes ← call (lift (to_bytes E 64 big));
        show_differences expected_bytes tag;;
        mret false) w
  = (Returned (from_bytes tag big =? E), w).
Proof.
  intros Htag HE. destruct (from_bytes tag big =? E); [reflexivity|].
  apply compare_run; assumption.
Qed.

Lemma keccak_compare_out_of_range (tag : bytes) (E : Z) (w : world) :
  length tag = 64%nat ->
  ~ 0 <= E < 2 ^ 512 ->
  exists msg,
    (if from_bytes tag big =? E then mret true
     else expected_bytes ← call (lift (to_bytes E 64 big));
          show_differences expected_bytes tag;;
          mret false) w
    = (Raised (OverflowError msg), w).
Proof.
  intros Htag HE. rewrite (mismatch_out_of_range tag E Htag HE).
  destruct (to_bytes_out_of_range E 64 big HE) as [msg Hmsg]. exists msg.
  erewrite script_bind_raised; [reflexivity|].
  apply call_raise. rewrite lift_run, Hmsg. reflexivity.
Qed.

Lemma keccak_compare_self (tag : bytes) (w : world) :
  (if from_bytes tag big =? from_bytes tag big then mret true
   else expected_bytes ← call (lift (to_bytes (from_bytes tag big) 64 big));
        show_differences expected_bytes tag;;
        mret false) w
  = (Returned true, w).
Proof. rewrite Z.eqb_refl. reflexivity. Qed.

(** [verify_puf_mode] on an input below [2^704]: for an expected value
    below [2^512] it returns [True] exactly when the 64-byte big-endian
    form of the expected value is the digest of [hash_puf_mode]; checking a
    digest against itself passes; an expected value that does not fit 64
    bytes raises [OverflowError] instead of answering [False].  An input
    that does not fit 704 bits raises [OverflowError] with nothing hashed. *)
Theorem verify_puf_mode_byte_exact (prim : bytes -> bytes) (V : Z) (w : world) :
  (forall data, length (prim data) = 64%nat) ->
  (0 <= V < 2 ^ 704 ->
   exists tag w1,
     SHA3_512_Hardware.hash_puf_mode prim V w = (Ok tag, w1)
     /\ (forall E, 0 <= E < 2 ^ 512 ->
           exists verdict,
             verify_keccak.verify_puf_mode prim V E w = (Returned verdict, w1)
             /\ (verdict = true <-> to_bytes E 64 big = Ok tag))
     /\ (forall E, ~ 0 <= E < 2 ^ 512 ->
           exists msg,
             verify_keccak.verify_puf_mode prim V E w = (Raised (OverflowError msg), w1))
     /\ verify_keccak.verify_puf_mode prim V (from_bytes tag big) w = (Returned true, w1))
  /\ (~ 0 <= V < 2 ^ 704 ->
      forall E, exists msg,
        verify_keccak.verify_puf_mode prim V E w = (Raised (OverflowError msg), w)).
Proof.
  intros Hprim. split.
  - intros HV. pose proof (hash_puf_mode_run prim V w HV) as Hrun.
    assert (Hlen : length (prim (le_digits 88 V)) = 64%nat) by apply Hprim.
    eexists _, _. split; [exact Hrun|].
    assert (Hstep : forall E,
      verify_keccak.verify_puf_mode prim V E w
      = (if from_bytes (prim (le_digits 88 V)) big =? E then mret true
         else expected_bytes ← call (lift (to_bytes E 64 big));
              show_differences expected_bytes (prim (le_digits 88 V));;
              mret false) (after_hash w (le_digits 88 V))).
    { intros E. unfold verify_keccak.verify_puf_mode.
      erewrite script_bind_returned by (apply call_ok; exact Hrun). reflexivity. }
    split; [|split].
    + intros E HE. exists (from_bytes (prim (le_digits 88 V)) big =? E).
      rewrite Hstep. split; [apply keccak_compare_in_range; assumption|].
      apply match_iff_bytes. exact Hlen.
    + intros E HE. rewrite Hstep. apply keccak_compare_out_of_range; assumption.
    + rewrite Hstep. apply keccak_compare_self.
  - intros HV E.
    destruct (hash_puf_mode_raise prim V w HV) as [msg Hmsg]. exists msg.
    unfold verify_keccak.verify_puf_mode.
    erewrite script_bind_raised; [reflexivity|]. apply call_raise. exact Hmsg.
Qed.

Lemma verify_puf_mode_byte_exact_witness :
  (forall data, length (Keccak.sha3_512 data) = 64%nat)
  /\ 0 <= puf_data_1 < 2 ^ 704
  /\ (exists tag w1,
        SHA3_512_Hardware.hash_puf_mode Keccak.sha3_512 puf_data_1 empty_world
        = (Ok tag, w1)
        /\ (forall E, 0 <= E < 2 ^ 512 ->
              exists verdict,
                verify_keccak.verify_puf_mode Keccak.sha3_512 puf_data_1 E empty_world
                = (Returned verdict, w1)
                /\ (verdict = true <-> to_bytes E 64 big = Ok tag))
        /\ (forall E, ~ 0 <= E < 2 ^ 512 ->
              exists msg,
                verify_keccak.verify_puf_mode Keccak.sha3_512 puf_data_1 E empty_world
                = (Raised (OverflowError msg), w1))
        /\ verify_keccak.verify_puf_mode Keccak.sha3_512 puf_data_1 (from_bytes tag big)
             empty_world = (Returned true, w1))
  /\ ~ 0 <= -1 < 2 ^ 704
  /\ (forall E, exists msg,
        verify_keccak.verify_puf_mode Keccak.sha3_512 (-1) E empty_world
        = (Raised (OverflowError msg), empty_world)).
Proof.
  assert (H1 : 0 <= puf_data_1 < 2 ^ 704) by (unfold puf_data_1; lia).
  assert (H2 : ~ 0 <= -1 < 2 ^ 704) by lia.
  split; [exact sha3_512_length|]. split; [exact H1|]. split.
  - apply (proj1 (verify_puf_mode_byte_exact Keccak.sha3_512 puf_data_1 empty_world
                    sha3_512_length) H1).
  - split; [exact H2|].
    apply (proj2 (verify_puf_mode_byte_exact Keccak.sha3_512 (-1) empty_world
                    sha3_512_length) H2).
Defined.

(** [verify_block_mode] on in-range words: for an expected value below
    [2^512] it returns [True] exactly when the 64-byte big-endian form of
    the expected value is the digest of [hash_block_mode]; checking a
    digest against itself passes; an expected value that does not fit 64
    bytes raises [OverflowError] instead of answering [False].  A word out
    of range raises [OverflowError] with nothing hashed. *)
Theorem verify_block_mode_byte_exact (prim : bytes -> bytes) (W : list Z) (w : world) :
  (forall data, length (prim data) = 64%nat) ->
  (Forall (fun x => 0 <= x < 2 ^ 32) W ->
   exists tag w1,
     SHA3_512_Hardware.hash_block_mode prim W w = (Ok tag, w1)
     /\ (forall E, 0 <= E < 2 ^ 512 ->
           exists verdict,
             verify_keccak.verify_block_mode prim W E w = (Returned verdict, w1)
             /\ (verdict = true <-> to_bytes E 64 big = Ok tag))
     /\ (forall E, ~ 0 <= E < 2 ^ 512 ->
           exists msg,
             verify_keccak.verify_block_mode prim W E w = (Raised (OverflowError msg), w1))
     /\ verify_keccak.verify_block_mode prim W (from_bytes tag big) w = (Returned true, w1))
  /\ (Exists (fun x => ~ 0 <= x < 2 ^ 32) W ->
      forall E, exists msg,
        verify_keccak.verify_block_mode prim W E w = (Raised (OverflowError msg), w)).
Proof.
  intros Hprim. split.
  - intros HW. pose proof (hash_block_mode_run prim W w HW) as Hrun.
    set (data := bytes_join (map (le_digits 4) W)) in *.
    assert (Hlen : length (prim data) = 64%nat) by apply Hprim.
    eexists _, _. split; [exact Hrun|].
    assert (Hstep : forall E,
      verify_keccak.verify_block_mode prim W E w
      = (if from_bytes (prim data) big =? E then mret true
         else expected_bytes ← call (lift (to_bytes E 64 big));
              show_differences expected_bytes (prim data);;
              mret false) (after_hash w data)).
    { intros E. unfold verify_keccak.verify_block_mode.
      erewrite script_bind_returned by (apply call_ok; exact Hrun). reflexivity. }
    split; [|split].
    + intros E HE. exists (from_bytes (prim data) big =? E).
      rewrite Hstep. split; [apply keccak_compare_in_range; assumption|].
      apply match_iff_bytes. exact Hlen.
    + intros E HE. rewrite Hstep. apply keccak_compare_out_of_range; assumption.
    + rewrite Hstep. apply keccak_compare_self.
  - intros HW E. destruct (words_to_bytes_raise W HW) as [msg Hmsg]. exists msg.
    unfold verify_keccak.verify_block_mode.
    erewrite script_bind_raised; [reflexivity|]. apply call_raise.
    unfold SHA3_512_Hardware.hash_block_mode.
    erewrite bind_raise; [reflexivity|]. rewrite lift_run, Hmsg. reflexivity.
Qed.

Lemma verify_block_mode_byte_exact_witness :
  (forall data, length (Keccak.sha3_512 data) = 64%nat)
  /\ Forall (fun x => 0 <= x < 2 ^ 32) message_words
  /\ (exists tag w1,
        SHA3_512_Hardware.hash_block_mode Keccak.sha3_512 message_words empty_world
        = (Ok tag, w1)
        /\ (forall E, 0 <= E < 2 ^ 512 ->
              exists verdict,
                verify_keccak.verify_block_mode Keccak.sha3_512 message_words E empty_world
                = (Returned verdict, w1)
                /\ (verdict = true <-> to_bytes E 64 big = Ok tag))
        /\ (forall E, ~ 0 <= E < 2 ^ 512 ->
              exists msg,
                verify_keccak.verify_block_mode Keccak.sha3_512 message_words E empty_world
                = (Raised (OverflowError msg), w1))
        /\ verify_keccak.verify_block_mode Keccak.sha3_512 message_words
             (from_bytes tag big) empty_world = (Returned true, w1))
  /\ Exists (fun x => ~ 0 <= x < 2 ^ 32) [-1]
  /\ (forall E, exists msg,
        verify_keccak.verify_block_mode Keccak.sha3_512 [-1] E empty_world
        = (Raised (OverflowError msg), empty_world)).
Proof.
  assert (H1 : Forall (fun x => 0 <= x < 2 ^ 32) message_words)
    by (repeat constructor; unfold message_words; lia).
  assert (H2 : Exists (fun x => ~ 0 <= x < 2 ^ 32) [-1]) by (apply Exists_cons_hd; lia).
  split; [exact sha3_512_length|]. split; [exact H1|]. split.
  - apply (proj1 (verify_block_mode_byte_exact Keccak.sha3_512 message_words empty_world
                    sha3_512_length) H1).
  - split; [exact H2|].
    apply (proj2 (verify_block_mode_byte_exact Keccak.sha3_512 [-1] empty_world
                    sha3_512_length) H2).
Defined.

(** ** The keyed hash and Block mode *)

Lemma words_le_length (n : nat) (v : Z) : length (words_le n v) = n.
Proof.
  revert v. induction n as [|n IH]; intros v; [reflexivity|].
  cbn [words_le length]. rewrite IH. reflexivity.
Qed.

(** The keyed hash of a word message is Block mode on a longer stream: the
    72-byte XOR block read as 18 little-endian words ([RATE_WORDS]),
    followed by the message words.  Both calls hand the same bytes to
    SHA3-512 and return the same digest. *)
Theorem hmac_is_block_mode_on_block_words (prim : bytes -> bytes) (self : loc)
    (K : bytes) (W : list Z) (w : world) :
  length K = 64%nat ->
  holds_key w self K ->
  Forall (fun x => 0 <= x < 2 ^ 32) W ->
  exists block_words,
    Z.of_nat (length block_words) = HMAC_SHA3_512.RATE_WORDS
    /\ Forall (fun x => 0 <= x < 2 ^ 32) block_words
    /\ Spec.encode_words_le block_words = Some (Spec.xor_block K)
    /\ HMAC_SHA3_512.compute prim self (PyList W) w
       = SHA3_512_Hardware.hash_block_mode prim (block_words ++ W) w.
Proof.
  intros HK Hkey HW.
  set (block_words := words_le 18 (Spec.decode_bytes_le (Spec.xor_block K))).
  assert (Hrange : Forall (fun x => 0 <= x < 2 ^ 32) block_words)
    by apply words_le_range.
  assert (Hbytes : bytes_join (map (le_digits 4) block_words) = Spec.xor_block K).
  { unfold block_words. rewrite <- le_digits_words.
    change (4 * 18)%nat with 72%nat. rewrite <- (xor_block_length K HK).
    apply le_digits_decode. }
  exists block_words. split; [unfold block_words; rewrite words_le_length; reflexivity|].
  split; [exact Hrange|]. split.
  { rewrite (encode_words_le_ok block_words Hrange), Hbytes. reflexivity. }
  rewrite (compute_words_run prim w self K W Hkey HW).
  rewrite (compute_bytes_run prim w self K _ Hkey).
  rewrite (hash_block_mode_run prim (block_words ++ W) w) by (apply Forall_app; auto).
  rewrite words_bytes_app, Hbytes. reflexivity.
Qed.

Lemma hmac_is_block_mode_on_block_words_witness :
  length key_bytes = 64%nat
  /\ holds_key keyed_world 0%nat key_bytes
  /\ Forall (fun x => 0 <= x < 2 ^ 32) message_words
  /\ exists block_words,
       Z.of_nat (length block_words) = HMAC_SHA3_512.RATE_WORDS
       /\ Forall (fun x => 0 <= x < 2 ^ 32) block_words
       /\ Spec.encode_words_le block_words = Some (Spec.xor_block key_bytes)
       /\ HMAC_SHA3_512.compute Keccak.sha3_512 0%nat (PyList message_words) keyed_world
          = SHA3_512_Hardware.hash_block_mode Keccak.sha3_512
              (block_words ++ message_words) keyed_world.
Proof.
  assert (Hk : holds_key keyed_world 0%nat key_bytes) by (vm_compute; reflexivity).
  assert (HW : Forall (fun x => 0 <= x < 2 ^ 32) message_words)
    by (repeat constructor; unfold message_words; lia).
  split; [reflexivity|]. split; [exact Hk|]. split; [exact HW|].
  apply (hmac_is_block_mode_on_block_words Keccak.sha3_512 0%nat key_bytes
           message_words keyed_world eq_refl Hk HW).
Defined.

(** ** Repeated calls *)


(** Calling [compute] again gives the same answer: the first call changes
    nothing the second one reads (the heap, and so the key, is as before;
    only the record of [hashlib] calls grew), so the same digest comes
    back, or the same exception. *)
Theorem compute_is_repeatable (prim : bytes -> bytes) (self : loc) (k : bytes)
    (message : pyval) (w w1 : world) (r : result bytes) :
  holds_key w self k ->
  HMAC_SHA3_512.compute prim self message w = (r, w1) ->
  heap w1 = heap w
  /\ holds_key w1 self k
  /\ fst (HMAC_SHA3_512.compute prim self message w1) = r.
Proof.
  intros Hk Hrun.
  pose proof (compute_keeps_heap prim self k message w w1 r Hk Hrun) as Hheap.
  assert (Hk1 : holds_key w1 self k) by (unfold holds_key; rewrite Hheap; exact Hk).
  split; [exact Hheap|]. split; [exact Hk1|].
  rewrite (compute_result_by_key prim self k message w1 w Hk1 Hk), Hrun. reflexivity.
Qed.

Lemma compute_is_repeatable_witness :
  holds_key keyed_world 0%nat key_bytes
  /\ HMAC_SHA3_512.compute Keccak.sha3_512 0%nat (PyList message_words) keyed_world
     = (fst (HMAC_SHA3_512.compute Keccak.sha3_512 0%nat (PyList message_words) keyed_world),
        snd (HMAC_SHA3_512.compute Keccak.sha3_512 0%nat (PyList message_words) keyed_world))
  /\ fst (HMAC_SHA3_512.compute Keccak.sha3_512 0%nat (PyList message_words)
            (snd (HMAC_SHA3_512.compute Keccak.sha3_512 0%nat (PyList message_words)
                    keyed_world)))
     = fst (HMAC_SHA3_512.compute Keccak.sha3_512 0%nat (PyList message_words) keyed_world).
Proof.
  assert (Hk : holds_key keyed_world 0%nat key_bytes) by (vm_compute; reflexivity).
  assert (Hrun : HMAC_SHA3_512.compute Keccak.sha3_512 0%nat (PyList message_words)
                   keyed_world
                 = (fst (HMAC_SHA3_512.compute Keccak.sha3_512 0%nat (PyList message_words)
                           keyed_world),
                    snd (HMAC_SHA3_512.compute Keccak.sha3_512 0%nat (PyList message_words)
                           keyed_world)))
    by (vm_compute; reflexivity).
  split; [exact Hk|]. split; [exact Hrun|].
  apply (compute_is_repeatable Keccak.sha3_512 0%nat key_bytes (PyList message_words)
           keyed_world _ _ Hk Hrun).
Defined.
